(** * ChatBox: optimistic send, rollback and the composer state

    A shallow embedding of [src/app/soapbox/features/chats/components/chat-box.tsx].

    The component is a closure over React state (the composer fields), the
    [submitMessage] mutation and the shared [queryClient].  Handlers become
    computations in a state-and-exception monad over a [World]; the query
    cache is a store of objects addressed by location, because the source
    reads a cached object (line 78), keeps the reference, and then assigns to
    a property of that same object (lines 82-83).

    The TanStack Query (v4) calls the component makes, [getQueryData],
    [setQueryData], [cancelQueries], [invalidateQueries] and the lifecycle of
    [useMutation], are library code; module [ReactQuery] below states the
    behaviour of each as the library documents it. *)

From Stdlib Require Import QArith Qround.
From stdpp Require Import gmap strings list pretty.

Local Open Scope Z_scope.

(** ** Data *)

(** A query key, e.g. [['chats', 'messages', chat.id]]. *)
Abbreviation QueryKey := (list string).

(** Locations of objects in the store. *)
Abbreviation loc := positive.

(** [IChat], as far as the component reads it. *)
Record IChat := mkChat {
  chat_id : string;
  chat_accepted : bool;
  chat_created_by_account : string;
}.

(** The own account ([useOwnAccount ()], possibly undefined). *)
Record Account := mkAccount { account_id : string }.

(** The upload response kept in [attachment] (lines 128, 184, 214). *)
Record Attachment := mkAttachment {
  attachment_id : string;
  preview_url : string;
}.

(** An entry of a page's [result].  The optimistic entry of lines 87-93
    carries [chatId] (spread from the mutation variables) and [pending];
    an entry without [pending] reads as [false]. *)
Record ChatMessage := mkChatMessage {
  msg_chatId : option string;
  msg_content : string;
  msg_id : string;
  msg_created_at : Z;
  msg_account_id : option string;
  msg_pending : bool;
}.

(** A page: its [result] array and its remaining own properties, which the
    spread [{...page, result: ...}] copies. *)
Record Page := mkPage {
  result : list ChatMessage;
  page_rest : list (string * string);
}.

(** The cached value of a messages query (an infinite-query data object). *)
Record InfiniteData := mkInfiniteData {
  pages : list Page;
  pageParams : list string;
}.

(** The variables of [submitMessage.mutate] (line 131). *)
Record NewMessage := mkNewMessage {
  chatId : string;
  nm_content : string;
}.

(** The context object [onMutate] returns (line 104): a reference, or
    undefined. *)
Record Context := mkContext { previousChatMessages : option loc }.

Inductive MutationStatus := idle | loading | success | error.

Record MutationState := mkMutationState {
  status : MutationStatus;
  variables : option NewMessage;
  context : option Context;
}.

Global Instance MutationStatus_eq_dec : EqDecision MutationStatus.
Proof. solve_decision. Defined.
Global Instance NewMessage_eq_dec : EqDecision NewMessage.
Proof. solve_decision. Defined.
Global Instance ChatMessage_eq_dec : EqDecision ChatMessage.
Proof. solve_decision. Defined.
Global Instance Page_eq_dec : EqDecision Page.
Proof. solve_decision. Defined.

Inductive exn := TypeError (msg : string).

(** The settled outcome of the create-message promise. *)
Inductive Response := Fulfilled | Rejected (e : exn).

(** Effects in the order they happen: state setters, query-client calls,
    and calls that leave the component. *)
Inductive event :=
  | ESetContent (s : string)
  | ESetAttachment (a : option Attachment)
  | ESetIsUploading (b : bool)
  | ESetUploadProgress (p : Q)
  | ESetResetFileKey (k : Z)
  | ECancelQueries (k : QueryKey)
  | EGetQueryData (k : QueryKey)
  | ESetQueryData (k : QueryKey)
  | EInvalidateQueries (k : QueryKey)
  | ECreateChatMessage (args : list string)
  | EResponse (r : Response)
  | EAcceptChatMutate
  | EDeleteChatMutate
  | EInitReport
  | EUploadMedia.

(** Work a handler leaves for after it returns (the part of an async
    function behind its first [await]). *)
Inductive Task := TExecute (vars : NewMessage).

Record Composer := mkComposer {
  content : string;
  attachment : option Attachment;
  isUploading : bool;
  uploadProgress : Q;
  resetFileKey : Z;
}.

Record QueryClient := mkQueryClient {
  heap : gmap loc InfiniteData;
  queries : gmap QueryKey loc;
  fetching : gset QueryKey;
  stale : gset QueryKey;
}.

Record World := mkWorld {
  composer : Composer;
  submitMessage : MutationState;
  queryClient : QueryClient;
  microtasks : list Task;
  log : list event;
}.

(** What the handlers take from outside: the value [Math.random ()] returns
    and the two readings of the clock at lines 89 and 90. *)
Record Env := mkEnv {
  random : Q;
  now_id : Z;
  now_created_at : Z;
}.

(** ** The monad: state, and exceptions that keep the state *)

Inductive Result (A : Type) :=
  | Ok (a : A)
  | Throw (e : exn).
Arguments Ok {A} a.
Arguments Throw {A} e.

Definition M (A : Type) : Type := World -> Result A * World.

Definition ret {A} (a : A) : M A := fun w => (Ok a, w).

Definition bind {A B} (m : M A) (f : A -> M B) : M B :=
  fun w => match m w with
           | (Ok a, w') => f a w'
           | (Throw e, w') => (Throw e, w')
           end.

Definition throw {A} (e : exn) : M A := fun w => (Throw e, w).

Definition gets {A} (f : World -> A) : M A := fun w => (Ok (f w), w).

Definition modify (f : World -> World) : M unit := fun w => (Ok tt, f w).

(** [try { m } catch (e) { h e }] *)
Definition try_catch {A} (m : M A) (h : exn -> M A) : M A :=
  fun w => match m w with
           | (Throw e, w') => h e w'
           | r => r
           end.

(** [try { m } finally { f }] where [f] does not throw. *)
Definition try_finally {A} (m : M A) (f : World -> World) : M A :=
  fun w => let (r, w') := m w in (r, f w').

Declare Scope monad_scope.
Delimit Scope monad_scope with monad.
Notation "x <- m ;; k" := (bind m (fun x => k))
  (at level 100, m at next level, right associativity) : monad_scope.
Notation "m ;;; k" := (bind m (fun _ => k))
  (at level 100, right associativity) : monad_scope.
Local Open Scope monad_scope.

Definition exec {A} (m : M A) (w : World) : World := snd (m w).
Definition outcome {A} (m : M A) (w : World) : Result A := fst (m w).

(** ** Updating the world *)

Definition set_composer (f : Composer -> Composer) (w : World) : World :=
  mkWorld (f (composer w)) (submitMessage w) (queryClient w) (microtasks w) (log w).
Definition set_submitMessage (f : MutationState -> MutationState) (w : World) : World :=
  mkWorld (composer w) (f (submitMessage w)) (queryClient w) (microtasks w) (log w).
Definition set_queryClient (f : QueryClient -> QueryClient) (w : World) : World :=
  mkWorld (composer w) (submitMessage w) (f (queryClient w)) (microtasks w) (log w).
Definition set_microtasks (f : list Task -> list Task) (w : World) : World :=
  mkWorld (composer w) (submitMessage w) (queryClient w) (f (microtasks w)) (log w).
Definition set_log (f : list event -> list event) (w : World) : World :=
  mkWorld (composer w) (submitMessage w) (queryClient w) (microtasks w) (f (log w)).

Definition emit (e : event) : M unit := modify (set_log (fun l => l ++ [e])).

(** ** JavaScript objects in the store *)

Module Js.

(** [o.pages] : reading a property of [undefined] throws. *)
Definition get_pages (o : option loc) : M (list Page) :=
  match o with
  | None => throw (TypeError "Cannot read properties of undefined (reading 'pages')")
  | Some l =>
      d <- gets (fun w => heap (queryClient w) !! l) ;;
      match d with
      | Some d => ret (pages d)
      | None => throw (TypeError "no such object") (* a reference to nothing: the cache never holds one *)
      end
  end.

(** [o.pages = ps] : writes the property of the object [o] refers to; every
    other reference to that object sees the new value. *)
Definition set_pages (o : option loc) (ps : list Page) : M unit :=
  match o with
  | None => throw (TypeError "Cannot set properties of undefined (setting 'pages')")
  | Some l =>
      modify (set_queryClient (fun q =>
        mkQueryClient
          (alter (fun d => mkInfiniteData ps (pageParams d)) l (heap q))
          (queries q) (fetching q) (stale q)))
  end.

End Js.

(** ** The query client and the mutation lifecycle (TanStack Query v4) *)

Module ReactQuery.

(** [queryClient.getQueryData (k)] : the query's [state.data] itself (a
    reference, not a copy), or undefined. *)
Definition getQueryData (k : QueryKey) : M (option loc) :=
  emit (EGetQueryData k) ;;;
  gets (fun w => queries (queryClient w) !! k).

(** [query.setData (data)] : stores the reference and clears the
    invalidated flag.  (Structural sharing may store an object that shares
    parts with the previous data; it is deep-equal to [data], and it is
    [data] itself when [data] is the object already stored.) *)
Definition setData (k : QueryKey) (l : loc) (q : QueryClient) : QueryClient :=
  mkQueryClient (heap q) (<[k := l]> (queries q)) (fetching q) (stale q ∖ {[k]}).

(** [queryClient.setQueryData (k, updater)] : the updater is applied to the
    current [state.data]; an undefined result leaves the cache as it is. *)
Definition setQueryData (k : QueryKey) (updater : option loc -> M (option loc)) : M unit :=
  emit (ESetQueryData k) ;;;
  prevData <- gets (fun w => queries (queryClient w) !! k) ;;
  data <- updater prevData ;;
  match data with
  | None => ret tt
  | Some l => modify (set_queryClient (setData k l))
  end.

(** [queryClient.setQueryData (k, value)] with a value that is not a
    function. *)
Definition setQueryData_value (k : QueryKey) (value : option loc) : M unit :=
  setQueryData k (fun _ => ret value).

(** [queryClient.cancelQueries (k)] : every fetch in flight under the key
    is cancelled. *)
Definition cancelQueries (k : QueryKey) : M unit :=
  emit (ECancelQueries k) ;;;
  modify (set_queryClient (fun q =>
    mkQueryClient (heap q) (queries q)
      (filter (fun k' => ¬ k `prefix_of` k') (fetching q)) (stale q))).

(** [queryClient.invalidateQueries (k)] : every query under the key is
    marked stale (and refetched by its observers). *)
Definition invalidateQueries (k : QueryKey) : M unit :=
  emit (EInvalidateQueries k) ;;;
  modify (set_queryClient (fun q =>
    mkQueryClient (heap q) (queries q) (fetching q)
      (stale q ∪ filter (fun k' => k `prefix_of` k') (dom (queries q))))).

(** A fetch of the query starts (an observer mounts, or a stale query is
    refetched). *)
Definition fetch (k : QueryKey) : M unit :=
  modify (set_queryClient (fun q =>
    mkQueryClient (heap q) (queries q) (fetching q ∪ {[k]}) (stale q))).

(** A fetch that was not cancelled resolves: its data is a new object. *)
Definition fetch_fulfilled (k : QueryKey) (d : InfiniteData) : M unit :=
  modify (set_queryClient (fun q =>
    let l := fresh (dom (heap q)) in
    mkQueryClient (<[l := d]> (heap q)) (<[k := l]> (queries q))
      (fetching q ∖ {[k]}) (stale q ∖ {[k]}))).

Definition dispatch (st : MutationStatus) (w : World) : World :=
  set_submitMessage (fun s => mkMutationState st (variables s) (context s)) w.

Section Mutation.
Variable onMutate : NewMessage -> M Context.
Variable mutationFn : NewMessage -> M unit.
Variable onError : exn -> NewMessage -> option Context -> M unit.
Variable onSettled : M unit.

(** [mutation.mutate (vars)] up to the first [await] of [execute]: the
    state becomes loading; the rest runs once the caller has returned. *)
Definition mutate (vars : NewMessage) : M unit :=
  modify (set_submitMessage (fun _ => mkMutationState loading (Some vars) None)) ;;;
  modify (set_microtasks (fun q => q ++ [TExecute vars])).

(** The [catch] block of [execute]: [onError], then [onSettled], then the
    error is thrown again; [finally] the state becomes error. *)
Definition execute_catch (e : exn) (vars : NewMessage) : M unit :=
  try_finally
    (ctx <- gets (fun w => context (submitMessage w)) ;;
     onError e vars ctx ;;;
     onSettled ;;;
     throw e)
    (dispatch error).

(** [execute] from [onMutate] to the call of the mutation function. *)
Definition execute_start (vars : NewMessage) : M unit :=
  try_catch
    (ctx <- onMutate vars ;;
     modify (set_submitMessage (fun s =>
       mkMutationState (status s) (variables s) (Some ctx))) ;;;
     mutationFn vars)
    (fun e => execute_catch e vars).

(** [execute] from the settling of the mutation function's promise. *)
Definition execute_settle (r : Response) : M unit :=
  emit (EResponse r) ;;;
  vars <- gets (fun w => variables (submitMessage w)) ;;
  match vars, r with
  | None, _ => ret tt
  | Some _, Fulfilled => onSettled ;;; modify (dispatch success)
  | Some vars, Rejected e => execute_catch e vars
  end.

(** [useMutation]'s [mutate] ends in [.catch (noop)]. *)
Definition catch_noop (m : M unit) : M unit :=
  try_catch m (fun _ => ret tt).

End Mutation.

End ReactQuery.

(** ** The component *)

Import ReactQuery.

(** Line 28: [Math.floor (Math.random () * 0x10000)].  The argument is the
    number [Math.random ()] returned, a double in [0, 1) and so a rational;
    multiplying a double below 1 by a power of two is exact. *)
Definition fileKeyGen (random : Q) : Z :=
  Qfloor (random * inject_Z 0x10000)%Q.

Section ChatBox.

(** The props and hooks the closure reads: [chat] and [useOwnAccount ()]. *)
Variable chat : IChat.
Variable account : option Account.

(** [account?.id] *)
Definition own_id : option string := account_id <$> account.

(** Line 57. *)
Definition needsAcceptance : bool :=
  negb (chat_accepted chat)
  && negb (bool_decide (Some (chat_created_by_account chat) = own_id)).

(** Line 59: [content.length === 0 && !attachment]. *)
Definition isSubmitDisabled (c : Composer) : bool :=
  (String.length (content c) =? 0)%nat && negb (bool_decide (is_Some (attachment c))).

(** [submitMessage.isLoading] *)
Definition isLoading (s : MutationState) : bool :=
  bool_decide (status s = loading).

(** [['chats', 'messages', chat.id]] *)
Definition messagesKey : QueryKey := ["chats"; "messages"; chat_id chat].

(** The state setters of lines 49-53. *)
Definition setContent (s : string) : M unit :=
  emit (ESetContent s) ;;;
  modify (set_composer (fun c =>
    mkComposer s (attachment c) (isUploading c) (uploadProgress c) (resetFileKey c))).

Definition setAttachment (a : option Attachment) : M unit :=
  emit (ESetAttachment a) ;;;
  modify (set_composer (fun c =>
    mkComposer (content c) a (isUploading c) (uploadProgress c) (resetFileKey c))).

Definition setIsUploading (b : bool) : M unit :=
  emit (ESetIsUploading b) ;;;
  modify (set_composer (fun c =>
    mkComposer (content c) (attachment c) b (uploadProgress c) (resetFileKey c))).

Definition setUploadProgress (p : Q) : M unit :=
  emit (ESetUploadProgress p) ;;;
  modify (set_composer (fun c =>
    mkComposer (content c) (attachment c) (isUploading c) p (resetFileKey c))).

Definition setResetFileKey (k : Z) : M unit :=
  emit (ESetResetFileKey k) ;;;
  modify (set_composer (fun c =>
    mkComposer (content c) (attachment c) (isUploading c) (uploadProgress c) k)).

(** Lines 116-122. *)
Definition clearState (env : Env) : M unit :=
  setContent "" ;;;
  setAttachment None ;;;
  setIsUploading false ;;;
  setUploadProgress 0 ;;;
  setResetFileKey (fileKeyGen (random env)).

(** Lines 87-93: the entry added to the first page. *)
Definition optimisticMessage (env : Env) (newMessage : NewMessage) : ChatMessage :=
  {| msg_chatId := Some (chatId newMessage);
     msg_content := nm_content newMessage;
     msg_id := pretty (now_id env);
     msg_created_at := now_created_at env;
     msg_account_id := own_id;
     msg_pending := true |}.

(** Lines 83-98: the callback of [prevResult.pages.map]. *)
Definition mapPage (env : Env) (newMessage : NewMessage) (idx : nat) (page : Page) : Page :=
  if decide (idx = 0%nat)
  then {| result := result page ++ [optimisticMessage env newMessage];
          page_rest := page_rest page |}
  else page.

(** Lines 81-101: the updater handed to [setQueryData].  [newResult] is the
    reference [prevResult]; the assignment writes to the object both name. *)
Definition optimisticUpdater (env : Env) (newMessage : NewMessage)
    (prevResult : option loc) : M (option loc) :=
  let newResult := prevResult in
  prevPages <- Js.get_pages prevResult ;;
  Js.set_pages newResult (imap (mapPage env newMessage) prevPages) ;;;
  ret newResult.

(** Lines 71-105. *)
Definition onMutate (env : Env) (newMessage : NewMessage) : M Context :=
  clearState env ;;;
  cancelQueries messagesKey ;;;
  previousChatMessages <- getQueryData messagesKey ;;
  setQueryData messagesKey (optimisticUpdater env newMessage) ;;;
  ret {| previousChatMessages := previousChatMessages |}.

(** Lines 107-109: [context.previousChatMessages] is read before the call,
    and throws when [context] is undefined. *)
Definition onError (err : exn) (newTodo : NewMessage) (context : option Context) : M unit :=
  match context with
  | None =>
      throw (TypeError "Cannot read properties of undefined (reading 'previousChatMessages')")
  | Some context => setQueryData_value messagesKey (previousChatMessages context)
  end.

(** Lines 111-113. *)
Definition onSettled : M unit := invalidateQueries messagesKey.

(** [createChatMessage (chatId, content)] of [useChat]: the create-message
    request, with the arguments it is called with. *)
Definition createChatMessage (chatId content : string) : M unit :=
  emit (ECreateChatMessage [chatId; content]).

(** Lines 68-70. *)
Definition mutationFn (vars : NewMessage) : M unit :=
  createChatMessage (chatId vars) (nm_content vars).

(** [acceptChat.mutate ()] and [deleteChat.mutate ()] of [useChat]. *)
Definition acceptChat_mutate : M unit := emit EAcceptChatMutate.
Definition deleteChat_mutate : M unit := emit EDeleteChatMutate.

(** Lines 124-134.  [params] is built and not used. *)
Definition sendMessage : M unit :=
  c <- gets composer ;;
  s <- gets submitMessage ;;
  if negb (isSubmitDisabled c) && negb (isLoading s) then
    let params := (content c, attachment_id <$> attachment c) in
    mutate (mkNewMessage (chat_id chat) (content c)) ;;;
    acceptChat_mutate
  else ret tt.

(** Line 136. *)
Definition insertLine : M unit :=
  c <- gets composer ;;
  setContent (String.append (content c) (String (Ascii.ascii_of_nat 10) EmptyString)).

(** Lines 138-148 ([markRead] does nothing, lines 160-163). *)
Definition handleKeyDown (key : string) (shiftKey : bool) : M unit :=
  if bool_decide (key = "Enter") && shiftKey then insertLine
  else if bool_decide (key = "Enter") then sendMessage
  else ret tt.

(** Lines 150-152. *)
Definition handleContentChange (value : string) : M unit := setContent value.

(** Lines 167-170. *)
Definition handleRemoveFile (env : Env) : M unit :=
  setAttachment None ;;;
  setResetFileKey (fileKeyGen (random env)).

(** Lines 177-189, in three parts: the call, [.then] and [.catch]. *)
Definition handleFiles : M unit :=
  setIsUploading true ;;;
  emit EUploadMedia.

Definition handleFiles_then (data : Attachment) : M unit :=
  setAttachment (Some data) ;;;
  setIsUploading false.

Definition handleFiles_catch : M unit :=
  setIsUploading false.

(** Lines 203-206. *)
Definition handleReportChat : M unit :=
  emit EInitReport ;;;
  acceptChat_mutate.

(** The work left behind by [submitMessage.mutate]: [execute] with the
    callbacks of lines 68-114, its rejection swallowed. *)
Definition run_task (env : Env) (t : Task) : M unit :=
  match t with
  | TExecute vars =>
      catch_noop (execute_start (onMutate env) mutationFn onError onSettled vars)
  end.

Fixpoint run_tasks (env : Env) (ts : list Task) : M unit :=
  match ts with
  | [] => ret tt
  | t :: ts => run_task env t ;;; run_tasks env ts
  end.

Definition flush (env : Env) : M unit :=
  ts <- gets microtasks ;;
  modify (set_microtasks (fun _ => [])) ;;;
  run_tasks env ts.

(** The create-message promise settles. *)
Definition settle (r : Response) : M unit :=
  catch_noop (execute_settle onError onSettled r).

(** A click on the send button, up to the point where control is back in
    the event loop. *)
Definition send (env : Env) : M unit :=
  sendMessage ;;;
  flush env.

End ChatBox.

(** ** The closure of a render *)

(** The constants a render captures for its handlers: [content] and
    [attachment] (lines 49-50) and [submitMessage.isLoading].  A handler
    created by a render tests these, not the state at the time it runs. *)
Record Render := mkRender {
  r_content : string;
  r_attachment : option Attachment;
  r_isLoading : bool;
}.

(** The render of the current state. *)
Definition render (w : World) : Render :=
  mkRender (content (composer w)) (attachment (composer w))
           (isLoading (submitMessage w)).

(** Line 59, on the constants of the render. *)
Definition r_isSubmitDisabled (r : Render) : bool :=
  (String.length (r_content r) =? 0)%nat
  && negb (bool_decide (is_Some (r_attachment r))).

(** Lines 124-134, as the closure created by the render [r]. *)
Definition sendMessage_from (chat : IChat) (r : Render) : M unit :=
  if negb (r_isSubmitDisabled r) && negb (r_isLoading r) then
    let params := (r_content r, attachment_id <$> r_attachment r) in
    mutate (mkNewMessage (chat_id chat) (r_content r)) ;;;
    acceptChat_mutate
  else ret tt.

(** ** Observations *)

(** Reading the pages cached under a key. *)
Definition read_pages (k : QueryKey) (w : World) : option (list Page) :=
  l ← queries (queryClient w) !! k;
  d ← heap (queryClient w) !! l;
  Some (pages d).

(** The [result] of the first cached page. *)
Definition first_page_result (k : QueryKey) (w : World) : option (list ChatMessage) :=
  ps ← read_pages k w;
  p ← head ps;
  Some (result p).

Fixpoint count (p : event -> bool) (l : list event) : nat :=
  match l with
  | [] => 0
  | e :: l => (if p e then 1 else 0) + count p l
  end%nat.

Definition is_create (e : event) : bool :=
  match e with ECreateChatMessage _ => true | _ => false end.
Definition is_response (e : event) : bool :=
  match e with EResponse _ => true | _ => false end.
Definition is_accept (e : event) : bool :=
  match e with EAcceptChatMutate => true | _ => false end.
Definition is_invalidate (e : event) : bool :=
  match e with EInvalidateQueries _ => true | _ => false end.

(** Create-message calls issued and not yet settled. *)
Definition in_flight (w : World) : Z :=
  Z.of_nat (count is_create (log w)) - Z.of_nat (count is_response (log w)).

(** What happens to a mounted component between two returns to the event
    loop: a DOM event, or a promise that settles.  Each handler runs against
    the state of the latest render, [submitMessage.isLoading] included: the
    mutation turns loading inside [mutate], and React has rendered again
    before the next event is dispatched. *)
Inductive Input :=
  | ContentChanged (value : string)
  | KeyPressed (key : string) (shiftKey : bool)
  | SendClicked
  | SubmitSettled (r : Response)
  | RemoveFileClicked
  | FilesChosen
  | UploadFulfilled (data : Attachment)
  | UploadRejected
  | AcceptClicked
  | LeaveConfirmed
  | ReportClicked
  | FetchStarted (k : QueryKey)
  | FetchFulfilled (k : QueryKey) (d : InfiniteData).

Section Machine.

Variable chat : IChat.
Variable account : option Account.

(** The guard of line 125. *)
Definition accepts (w : World) : bool :=
  negb (isSubmitDisabled (composer w)) && negb (isLoading (submitMessage w)).

Definition handler (env : Env) (i : Input) : M unit :=
  match i with
  | ContentChanged value => handleContentChange value
  | KeyPressed key shiftKey => handleKeyDown chat key shiftKey
  | SendClicked => sendMessage chat
  | SubmitSettled r => settle chat r
  | RemoveFileClicked => handleRemoveFile env
  | FilesChosen => handleFiles
  | UploadFulfilled data => handleFiles_then data
  | UploadRejected => handleFiles_catch
  | AcceptClicked => acceptChat_mutate
  | LeaveConfirmed => deleteChat_mutate
  | ReportClicked => handleReportChat
  | FetchStarted k => fetch k
  | FetchFulfilled k d => fetch_fulfilled k d
  end.

(** A response needs a request in progress; a fetch resolves only while it
    is in flight. *)
Definition enabled (i : Input) (w : World) : Prop :=
  match i with
  | SubmitSettled _ => status (submitMessage w) = loading
  | FetchFulfilled k _ => k ∈ fetching (queryClient w)
  | _ => True
  end.

Definition step (env : Env) (i : Input) : M unit :=
  handler env i ;;;
  flush chat account env.

(** The state at mount (lines 49-53), over any cache. *)
Definition initial (env : Env) (q : QueryClient) : World :=
  mkWorld (mkComposer "" None false 0 (fileKeyGen (random env)))
          (mkMutationState idle None None) q [] [].

Inductive reachable : World -> Prop :=
  | reachable_initial env q : reachable (initial env q)
  | reachable_step env i w :
      reachable w -> enabled i w -> reachable (exec (step env i) w).

(** What holds whenever control is back in the event loop: no work is left
    over, a loading submission has its variables, and the create-message
    calls outnumber the responses by one exactly while it is loading. *)
Definition consistent (w : World) : Prop :=
  microtasks w = [] /\
  (status (submitMessage w) = loading -> is_Some (variables (submitMessage w))) /\
  count is_create (log w) =
    (count is_response (log w) + (if isLoading (submitMessage w) then 1 else 0))%nat.

(** The events of [clearState]. *)
Definition clearEvents (env : Env) : list event :=
  [ESetContent ""; ESetAttachment None; ESetIsUploading false;
   ESetUploadProgress 0; ESetResetFileKey (fileKeyGen (random env))].

(** The events of [onMutate], up to and including the optimistic insert. *)
Definition onMutateEvents (env : Env) : list event :=
  clearEvents env ++
  [ECancelQueries (messagesKey chat); EGetQueryData (messagesKey chat);
   ESetQueryData (messagesKey chat)].

(** The composer after [clearState]. *)
Definition cleared (env : Env) : Composer :=
  mkComposer "" None false 0 (fileKeyGen (random env)).

(** The fetches left after [cancelQueries (messagesKey)]. *)
Definition cancelled (q : QueryClient) : gset QueryKey :=
  filter (fun k' => ¬ messagesKey chat `prefix_of` k') (fetching q).

(** The query client after [onMutate] on a chat cached at [l] with data [d]. *)
Definition inserted (env : Env) (vars : NewMessage) (l : loc) (d : InfiniteData)
    (q : QueryClient) : QueryClient :=
  mkQueryClient
    (alter (fun d0 =>
       mkInfiniteData (imap (mapPage account env vars) (pages d)) (pageParams d0))
       l (heap q))
    (<[messagesKey chat := l]> (queries q))
    (cancelled q)
    (stale q ∖ {[messagesKey chat]}).

End Machine.

(** ** A concrete chat *)

Definition ex_chat : IChat := mkChat "c1" true "me".
Definition ex_account : option Account := Some (mkAccount "me").
Definition ex_message : ChatMessage :=
  mkChatMessage None "hello" "41" 1000 (Some "them") false.
Definition ex_env : Env := mkEnv (1 # 2) 1700000000000 1700000000001.

(** One cached page holding one message. *)
Definition ex_client : QueryClient :=
  mkQueryClient {[ 1%positive := mkInfiniteData [mkPage [ex_message] []] [] ]}
                {[ messagesKey ex_chat := 1%positive ]} ∅ ∅.

(** Nothing cached. *)
Definition ex_client_empty : QueryClient := mkQueryClient ∅ ∅ ∅ ∅.

Definition ex_composer (s : string) (a : option Attachment) : Composer :=
  mkComposer s a false 0 (fileKeyGen (random ex_env)).

Definition ex_world (s : string) (a : option Attachment) (q : QueryClient) : World :=
  mkWorld (ex_composer s a) (mkMutationState idle None None) q [] [].

Definition ex_attachment : Attachment := mkAttachment "m7" "https://x/photo.png".

(** An attachment waiting in the composer. *)
Definition ex_with_file : World := ex_world "" (Some ex_attachment) ex_client.

(** Mounted over [ex_client], then "hi" typed. *)
Definition ex_typed : World :=
  exec (step ex_chat ex_account ex_env (ContentChanged "hi")) (initial ex_env ex_client).

(** ** The handlers the rendered markup does not reach *)

(** Lines 160-163: both calls are commented out. *)
Definition markRead : M unit := ret tt.

(** Line 165. *)
Definition handleMouseOver : M unit := markRead.

(** Lines 154-158: [clipboardData] is absent, or holds its files. *)
Definition handlePaste (clipboardData : option (list string)) : M unit :=
  c <- gets composer ;;
  if isSubmitDisabled c
     && match clipboardData with
        | Some files => (length files =? 1)%nat
        | None => false
        end
  then handleFiles
  else ret tt.

(** ** Further invariants of the machine *)

(** A loading submission holds the context [onMutate] returned. *)
Definition has_context (w : World) : Prop :=
  status (submitMessage w) = loading -> is_Some (context (submitMessage w)).

(** [Math.random ()] returns a number in [0, 1). *)
Definition valid_env (env : Env) : Prop :=
  (0 <= random env)%Q /\ (random env < 1)%Q.

Definition token_in_range (w : World) : Prop :=
  0 <= resetFileKey (composer w) < 0x10000.

Section Drawn.

Variable chat : IChat.
Variable account : option Account.

(** The reachable states when every draw is one [Math.random ()] can
    return. *)
Inductive reachable_drawn : World -> Prop :=
  | reachable_drawn_initial env q :
      valid_env env -> reachable_drawn (initial env q)
  | reachable_drawn_step env i w :
      valid_env env -> reachable_drawn w -> enabled i w ->
      reachable_drawn (exec (step chat account env i) w).

End Drawn.

(** A second chat, not cached by [ex_client]. *)
Definition ex_other_key : QueryKey := ["chats"; "messages"; "c2"].

(** [ex_client] with a second chat cached as its own object. *)
Definition ex_client_two : QueryClient :=
  mkQueryClient
    {[ 1%positive := mkInfiniteData [mkPage [ex_message] []] [];
       2%positive := mkInfiniteData [mkPage [] []] [] ]}
    {[ messagesKey ex_chat := 1%positive; ex_other_key := 2%positive ]}
    {[ ex_other_key ]} ∅.

(** [ex_chat] cached with no page at all. *)
Definition ex_client_no_page : QueryClient :=
  mkQueryClient {[ 1%positive := mkInfiniteData [] [] ]}
                {[ messagesKey ex_chat := 1%positive ]} ∅ ∅.

(** A submission in flight: "hi" typed and sent over [ex_client]. *)
Definition ex_sent : World :=
  exec (step ex_chat ex_account ex_env SendClicked) ex_typed.

(** A later reading of the clock, and another draw. *)
Definition ex_env_later : Env := mkEnv (1 # 4) 1700000005000 1700000005001.

(** The component is mounted again over the cache [ex_sent] left, while
    that submission is unsettled; "again" is typed and sent. *)
Definition ex_remounted_sent : World :=
  exec (step ex_chat ex_account ex_env_later SendClicked)
    (exec (step ex_chat ex_account ex_env_later (ContentChanged "again"))
       (initial ex_env_later (queryClient ex_sent))).

(** The same chat before it is accepted, opened by the other party. *)
Definition ex_chat_unaccepted : IChat := mkChat "c1" false "them".

(** What a refetch of [ex_chat] returns: one page, the message confirmed. *)
Definition ex_refetched : InfiniteData :=
  mkInfiniteData
    [mkPage [ex_message; mkChatMessage None "hi" "42" 2000 (Some "me") false] []] [].

(** * Properties *)

Ltac run :=
  cbv [send sendMessage flush run_tasks run_task catch_noop execute_start
       execute_catch execute_settle settle onMutate onError onSettled mutationFn
       createChatMessage clearState setContent setAttachment setIsUploading
       setUploadProgress setResetFileKey handleRemoveFile handleFiles
       handleFiles_then handleFiles_catch handleReportChat handleContentChange
       insertLine acceptChat_mutate deleteChat_mutate optimisticUpdater
       fetch fetch_fulfilled step handler
       bind ret throw gets modify try_catch try_finally emit exec outcome
       set_composer set_submitMessage set_queryClient set_microtasks set_log
       Js.get_pages Js.set_pages getQueryData setQueryData setQueryData_value
       cancelQueries invalidateQueries setData dispatch mutate
       composer submitMessage queryClient microtasks log
       heap queries fetching stale
       content attachment isUploading uploadProgress resetFileKey
       status variables context previousChatMessages fst snd
       accepts clearEvents cleared onMutateEvents cancelled inserted].

Ltac unpack w :=
  destruct w as [[?ct ?att ?up ?pr ?rk] [?st ?vars ?ctx] [?h ?qs ?f ?sl] ?ts ?lg].

(** ** Counting events *)

Lemma count_app p l1 l2 : count p (l1 ++ l2) = (count p l1 + count p l2)%nat.
Proof. induction l1 as [|e l1 IH]; cbn [app count]; [reflexivity | rewrite IH; lia]. Qed.

(** ** The page map of the optimistic insert *)

Section PageMap.
Variable account : option Account.
Variable env : Env.
Variable vars : NewMessage.

Lemma imap_mapPage_tail (ps : list Page) (n : nat) :
  imap (fun i => mapPage account env vars (S (n + i))) ps = ps.
Proof.
  revert n. induction ps as [|p ps IH]; intros n; [reflexivity |].
  cbn [imap]. f_equal.
  replace (imap ((fun i => mapPage account env vars (S (n + i))) ∘ S) ps)
    with (imap (fun i => mapPage account env vars (S (S n + i))) ps); [apply IH |].
  apply imap_ext. intros i x _. cbn. f_equal; lia.
Qed.

Lemma imap_mapPage_cons (p : Page) (ps : list Page) :
  imap (mapPage account env vars) (p :: ps) =
  mkPage (result p ++ [optimisticMessage account env vars]) (page_rest p) :: ps.
Proof.
  cbn [imap]. f_equal. apply (imap_mapPage_tail ps 0).
Qed.

Lemma imap_mapPage_nil : imap (mapPage account env vars) [] = [].
Proof. reflexivity. Qed.

End PageMap.

(** ** What one handler run does *)

Section Runs.
Variable chat : IChat.
Variable account : option Account.

Abbreviation key := (messagesKey chat).

Lemma sendMessage_rejected w :
  accepts w = false -> sendMessage chat w = (Ok tt, w).
Proof. unpack w. run. intros ->. reflexivity. Qed.

Lemma sendMessage_accepted w :
  accepts w = true ->
  sendMessage chat w =
  (Ok tt,
   mkWorld (composer w)
     (mkMutationState loading
        (Some (mkNewMessage (chat_id chat) (content (composer w)))) None)
     (queryClient w)
     (microtasks w ++ [TExecute (mkNewMessage (chat_id chat) (content (composer w)))])
     (log w ++ [EAcceptChatMutate])).
Proof. unpack w. run. intros ->. reflexivity. Qed.

Lemma onMutate_cached env vars w l d :
  queries (queryClient w) !! key = Some l ->
  heap (queryClient w) !! l = Some d ->
  onMutate chat account env vars w =
  (Ok (mkContext (Some l)),
   mkWorld (cleared env) (submitMessage w)
     (inserted chat account env vars l d (queryClient w))
     (microtasks w) (log w ++ onMutateEvents chat env)).
Proof.
  unpack w. run. intros Hq Hh. rewrite Hq, Hh, <- !app_assoc. reflexivity.
Qed.

Lemma onMutate_uncached env vars w :
  queries (queryClient w) !! key = None ->
  onMutate chat account env vars w =
  (Throw (TypeError "Cannot read properties of undefined (reading 'pages')"),
   mkWorld (cleared env) (submitMessage w)
     (mkQueryClient (heap (queryClient w)) (queries (queryClient w))
        (cancelled chat (queryClient w)) (stale (queryClient w)))
     (microtasks w) (log w ++ onMutateEvents chat env)).
Proof.
  unpack w. run. intros Hq. rewrite Hq, <- !app_assoc. reflexivity.
Qed.

Lemma send_rejected env w :
  accepts w = false -> microtasks w = [] ->
  send chat account env w = (Ok tt, w).
Proof. unpack w. run. intros -> ->. reflexivity. Qed.

Lemma send_cached env w l d :
  accepts w = true -> microtasks w = [] ->
  queries (queryClient w) !! key = Some l ->
  heap (queryClient w) !! l = Some d ->
  send chat account env w =
  (Ok tt,
   mkWorld (cleared env)
     (mkMutationState loading
        (Some (mkNewMessage (chat_id chat) (content (composer w))))
        (Some (mkContext (Some l))))
     (inserted chat account env
        (mkNewMessage (chat_id chat) (content (composer w))) l d (queryClient w))
     []
     (log w ++ EAcceptChatMutate :: onMutateEvents chat env
        ++ [ECreateChatMessage [chat_id chat; content (composer w)]])).
Proof.
  unpack w. run. intros -> -> Hq Hh. cbn [app]. run.
  rewrite Hq, Hh, <- !app_assoc. reflexivity.
Qed.

Lemma send_throwing env w :
  accepts w = true -> microtasks w = [] ->
  (queries (queryClient w) !! key = None \/
   exists l, queries (queryClient w) !! key = Some l /\ heap (queryClient w) !! l = None) ->
  send chat account env w =
  (Ok tt,
   mkWorld (cleared env)
     (mkMutationState error
        (Some (mkNewMessage (chat_id chat) (content (composer w)))) None)
     (mkQueryClient (heap (queryClient w)) (queries (queryClient w))
        (cancelled chat (queryClient w)) (stale (queryClient w)))
     []
     (log w ++ EAcceptChatMutate :: onMutateEvents chat env)).
Proof.
  unpack w. run. intros -> -> Hq. cbn [app]. run.
  destruct Hq as [Hq | (l & Hq & Hh)].
  - rewrite Hq, <- !app_assoc. reflexivity.
  - rewrite Hq, Hh, <- !app_assoc. reflexivity.
Qed.

Lemma settle_rejected e w vars l :
  submitMessage w = mkMutationState loading (Some vars) (Some (mkContext (Some l))) ->
  settle chat (Rejected e) w =
  (Ok tt,
   mkWorld (composer w)
     (mkMutationState error (Some vars) (Some (mkContext (Some l))))
     (mkQueryClient (heap (queryClient w))
        (<[key := l]> (queries (queryClient w)))
        (fetching (queryClient w))
        ((stale (queryClient w) ∖ {[key]})
           ∪ filter (fun k' => key `prefix_of` k')
               (dom (<[key := l]> (queries (queryClient w))))))
     (microtasks w)
     (log w ++ [EResponse (Rejected e); ESetQueryData key; EInvalidateQueries key])).
Proof.
  unpack w. run. intros [= -> -> ->]. rewrite <- !app_assoc. reflexivity.
Qed.

Lemma settle_fulfilled w vars ctx :
  submitMessage w = mkMutationState loading (Some vars) ctx ->
  settle chat Fulfilled w =
  (Ok tt,
   mkWorld (composer w) (mkMutationState success (Some vars) ctx)
     (mkQueryClient (heap (queryClient w)) (queries (queryClient w))
        (fetching (queryClient w))
        (stale (queryClient w)
           ∪ filter (fun k' => key `prefix_of` k') (dom (queries (queryClient w)))))
     (microtasks w)
     (log w ++ [EResponse Fulfilled; EInvalidateQueries key])).
Proof.
  unpack w. run. intros [= -> -> ->]. rewrite <- !app_assoc. reflexivity.
Qed.

Lemma read_pages_inserted env vars l d w q' :
  heap (queryClient w) !! l = Some d ->
  heap q' = heap (inserted chat account env vars l d (queryClient w)) ->
  queries q' !! key = Some l ->
  forall c s ts lg,
  read_pages key (mkWorld c s q' ts lg) = Some (imap (mapPage account env vars) (pages d)).
Proof.
  intros Hh Hheap Hq c s ts lg. unfold read_pages. cbn [queryClient].
  rewrite Hq, Hheap. cbn [inserted heap mbind option_bind].
  rewrite lookup_alter_eq, Hh. reflexivity.
Qed.

End Runs.

Section Claims.
Variable chat : IChat.
Variable account : option Account.

Abbreviation key := (messagesKey chat).

Lemma onError_rollback e vars w l :
  onError chat e vars (Some (mkContext (Some l))) w =
  (Ok tt,
   mkWorld (composer w) (submitMessage w)
     (mkQueryClient (heap (queryClient w))
        (<[key := l]> (queries (queryClient w)))
        (fetching (queryClient w))
        (stale (queryClient w) ∖ {[key]}))
     (microtasks w) (log w ++ [ESetQueryData key])).
Proof. unpack w. run. reflexivity. Qed.

Lemma appended_differs (p : Page) (ps : list Page) (m : ChatMessage) :
  Some (mkPage (result p ++ [m]) (page_rest p) :: ps) ≠ Some (p :: ps).
Proof.
  intros [= H]. apply (f_equal result) in H. cbn [result] in H.
  apply (f_equal length) in H. rewrite length_app in H. cbn [length] in H. lia.
Qed.

Lemma read_pages_cached w l d :
  queries (queryClient w) !! key = Some l ->
  heap (queryClient w) !! l = Some d ->
  read_pages key w = Some (pages d).
Proof. intros Hq Hh. unfold read_pages. rewrite Hq. cbn. rewrite Hh. reflexivity. Qed.

(** C1 (code bug).  The snapshot of line 78 is a reference to the cached
    object, and the updater of lines 82-83 writes to that object.  On a chat
    cached with at least one page, [onMutate] followed by the rollback of
    [onError] leaves the optimistic entry in the first page: the pages read
    after the rollback are not the pages read when the snapshot was taken. *)
Theorem rollback_keeps_optimistic_entry env vars e w l d p ps :
  queries (queryClient w) !! key = Some l ->
  heap (queryClient w) !! l = Some d ->
  pages d = p :: ps ->
  let w1 := exec (onMutate chat account env vars) w in
  let w2 := exec (onError chat e vars (Some (mkContext (Some l)))) w1 in
  outcome (onMutate chat account env vars) w = Ok (mkContext (Some l)) /\
  read_pages key w = Some (p :: ps) /\
  read_pages key w2 =
    Some (mkPage (result p ++ [optimisticMessage account env vars]) (page_rest p) :: ps) /\
  read_pages key w2 ≠ read_pages key w.
Proof.
  intros Hq Hh Hp w1 w2.
  assert (Hw : read_pages key w = Some (p :: ps)).
  { rewrite (read_pages_cached w l d Hq Hh), Hp. reflexivity. }
  assert (H2 : read_pages key w2 =
    Some (mkPage (result p ++ [optimisticMessage account env vars]) (page_rest p) :: ps)).
  { subst w2 w1. unfold exec at 2. rewrite (onMutate_cached chat account env vars w l d Hq Hh).
    cbn [snd]. unfold exec. rewrite onError_rollback. cbn [snd queryClient composer].
    rewrite (read_pages_inserted chat account env vars l d w _ Hh);
      [| reflexivity | apply lookup_insert_eq].
    rewrite Hp, imap_mapPage_cons. reflexivity. }
  split; [| split; [exact Hw | split; [exact H2 |]]].
  - unfold outcome. rewrite (onMutate_cached chat account env vars w l d Hq Hh). reflexivity.
  - rewrite H2, Hw. apply appended_differs.
Qed.


(** C7 (code bug, the defect of C1).  A send on a chat cached with at least
    one page is followed by a rejected create-message call.  When the
    submission has settled the cache was written by the rollback and then
    invalidated once, in that order, and the pending entry of the attempt
    is still the last entry of the first page. *)
Theorem failed_send_leaves_pending_entry env e w l d p ps :
  accepts w = true -> microtasks w = [] ->
  queries (queryClient w) !! key = Some l ->
  heap (queryClient w) !! l = Some d ->
  pages d = p :: ps ->
  let msg := optimisticMessage account env
               (mkNewMessage (chat_id chat) (content (composer w))) in
  let w2 := exec (settle chat (Rejected e)) (exec (send chat account env) w) in
  first_page_result key w2 = Some (result p ++ [msg]) /\
  msg_pending msg = true /\
  status (submitMessage w2) = error /\
  log w2 = log w ++ EAcceptChatMutate :: onMutateEvents chat env ++
             [ECreateChatMessage [chat_id chat; content (composer w)];
              EResponse (Rejected e); ESetQueryData key; EInvalidateQueries key] /\
  count is_invalidate (log w2) = S (count is_invalidate (log w)).
Proof.
  intros Ha Ht Hq Hh Hp msg w2. subst w2. unfold exec.
  rewrite (send_cached chat account env w l d Ha Ht Hq Hh). cbn [snd].
  erewrite settle_rejected by reflexivity.
  cbn [snd composer submitMessage queryClient microtasks log status].
  split; [| split; [reflexivity | split; [reflexivity | split]]].
  - unfold first_page_result.
    erewrite (read_pages_inserted chat account env _ l d w _ Hh);
      [| reflexivity | apply lookup_insert_eq].
    rewrite Hp, imap_mapPage_cons. reflexivity.
  - rewrite <- !app_assoc. cbn [app]. rewrite <- !app_assoc. reflexivity.
  - unfold onMutateEvents, clearEvents. rewrite !count_app. cbn. lia.
Qed.

(** C3 (code bug).  On a chat with nothing cached under its key the updater
    reads [pages] of [undefined]: [onMutate] throws a TypeError.  The cached
    data is left as it was, but the submission ends in the error state with
    the composer already cleared, and neither the create-message call nor
    the invalidation is among the events of the send. *)
Theorem uncached_insert_throws env w :
  accepts w = true -> microtasks w = [] ->
  queries (queryClient w) !! key = None ->
  let vars := mkNewMessage (chat_id chat) (content (composer w)) in
  let w' := exec (send chat account env) w in
  outcome (onMutate chat account env vars) w =
    Throw (TypeError "Cannot read properties of undefined (reading 'pages')") /\
  heap (queryClient w') = heap (queryClient w) /\
  queries (queryClient w') = queries (queryClient w) /\
  status (submitMessage w') = error /\
  composer w' = cleared env /\
  log w' = log w ++ EAcceptChatMutate :: onMutateEvents chat env.
Proof.
  intros Ha Ht Hq vars w'. subst w'. unfold exec, outcome.
  rewrite (onMutate_uncached chat account env vars w Hq).
  rewrite (send_throwing chat account env w Ha Ht (or_introl Hq)).
  repeat split.
Qed.

(** C4.  With empty content and no attachment, [sendMessage] (from the
    button or from the Enter key) returns the world it was given: composer,
    cache, mutation state and event log are all unchanged, so no call left
    the component. *)
Theorem empty_send_is_noop w :
  content (composer w) = "" -> attachment (composer w) = None ->
  sendMessage chat w = (Ok tt, w) /\
  handleKeyDown chat "Enter" false w = (Ok tt, w).
Proof.
  intros Hc Hat.
  assert (Hr : accepts w = false).
  { unfold accepts, isSubmitDisabled. rewrite Hc, Hat. reflexivity. }
  split.
  - apply sendMessage_rejected, Hr.
  - unfold handleKeyDown. cbn. apply sendMessage_rejected, Hr.
Qed.

(** C2 (amended).  An accepted send on a chat cached with at least one page
    appends the new entry to the END of the first page's [result] (line 87:
    [[...page.result, entry]]); the other pages are untouched.  The entry
    has [pending] true, the given content, and the clock reading as id.  It
    is in the cache when the create-message call is issued: that call is
    the last event, the submission is loading, and no response has been
    received. *)
Theorem optimistic_insert_appends env w l d p ps :
  accepts w = true -> microtasks w = [] ->
  queries (queryClient w) !! key = Some l ->
  heap (queryClient w) !! l = Some d ->
  pages d = p :: ps ->
  let msg := optimisticMessage account env
               (mkNewMessage (chat_id chat) (content (composer w))) in
  let w' := exec (send chat account env) w in
  read_pages key w' = Some (mkPage (result p ++ [msg]) (page_rest p) :: ps) /\
  (first_page_result key w' ≫= last) = Some msg /\
  msg_pending msg = true /\
  msg_content msg = content (composer w) /\
  msg_id msg = pretty (now_id env) /\
  status (submitMessage w') = loading /\
  log w' = log w ++ EAcceptChatMutate :: onMutateEvents chat env ++
             [ECreateChatMessage [chat_id chat; content (composer w)]].
Proof.
  intros Ha Ht Hq Hh Hp msg w'. subst w'. unfold exec.
  rewrite (send_cached chat account env w l d Ha Ht Hq Hh). cbn [snd].
  assert (Hr : forall c s ts lg,
    read_pages key (mkWorld c s
      (inserted chat account env (mkNewMessage (chat_id chat) (content (composer w)))
         l d (queryClient w)) ts lg)
    = Some (mkPage (result p ++ [msg]) (page_rest p) :: ps)).
  { intros. erewrite (read_pages_inserted chat account env _ l d w _ Hh);
      [| reflexivity | apply lookup_insert_eq].
    rewrite Hp, imap_mapPage_cons. reflexivity. }
  split; [apply Hr |].
  split; [| repeat split].
  unfold first_page_result. rewrite Hr. cbn. apply last_snoc.
Qed.

(** C9 (amended).  Every accepted [sendMessage] calls [acceptChat.mutate ()]
    once, right after [submitMessage.mutate] (line 132), whatever
    [needsAcceptance] is: the call is not guarded by the gate. *)
Theorem accept_is_unconditional env w :
  accepts w = true -> microtasks w = [] ->
  log (exec (sendMessage chat) w) = log w ++ [EAcceptChatMutate] /\
  count is_accept (log (exec (send chat account env) w))
    = S (count is_accept (log w)).
Proof.
  intros Ha Ht. split.
  - unfold exec. rewrite (sendMessage_accepted chat w Ha). reflexivity.
  - destruct (queries (queryClient w) !! key) as [l|] eqn:Hq;
      [destruct (heap (queryClient w) !! l) as [d|] eqn:Hh |]; unfold exec.
    + rewrite (send_cached chat account env w l d Ha Ht Hq Hh). cbn [snd log].
      rewrite count_app. cbn. lia.
    + rewrite (send_throwing chat account env w Ha Ht); [| right; eauto].
      cbn [snd log]. rewrite count_app. cbn. lia.
    + rewrite (send_throwing chat account env w Ha Ht); [| left; exact Hq].
      cbn [snd log]. rewrite count_app. cbn. lia.
Qed.

(** An accepted send ends in one of two ways: the create-message call was
    issued and the submission is loading, or [onMutate] threw and the
    submission is in the error state with no call issued. *)
Lemma send_accepted_cases env w :
  accepts w = true -> microtasks w = [] ->
  let vars := mkNewMessage (chat_id chat) (content (composer w)) in
  let w' := exec (send chat account env) w in
  composer w' = cleared env /\
  fetching (queryClient w') = cancelled chat (queryClient w) /\
  microtasks w' = [] /\
  variables (submitMessage w') = Some vars /\
  ((is_Some (read_pages key w) /\
    status (submitMessage w') = loading /\
    log w' = log w ++ EAcceptChatMutate :: onMutateEvents chat env ++
               [ECreateChatMessage [chat_id chat; content (composer w)]])
   \/
   (read_pages key w = None /\
    status (submitMessage w') = error /\
    log w' = log w ++ EAcceptChatMutate :: onMutateEvents chat env)).
Proof.
  intros Ha Ht vars w'. subst w'. unfold exec, read_pages.
  destruct (queries (queryClient w) !! key) as [l|] eqn:Hq;
    [destruct (heap (queryClient w) !! l) as [d|] eqn:Hh |].
  - rewrite (send_cached chat account env w l d Ha Ht Hq Hh). cbn.
    rewrite Hh. repeat split. left. repeat split. eauto.
  - rewrite (send_throwing chat account env w Ha Ht); [| right; eauto]. cbn.
    rewrite Hh. repeat split. right. repeat split.
  - rewrite (send_throwing chat account env w Ha Ht); [| left; exact Hq]. cbn.
    repeat split. right. repeat split.
Qed.


Ltac elem_cases H :=
  repeat match type of H with
         | _ ∈ _ ++ _ => apply elem_of_app in H as [H | H]
         | _ ∈ _ :: _ => apply elem_of_cons in H as [H | H]
         | _ ∈ [] => apply elem_of_nil in H; destruct H
         end.

(** C10.  With an attachment set, every create-message call of the send is
    made with exactly the chat id and the text content; the mutation
    variables hold nothing else, and [params] (with [media_id]) is not
    passed on.  On a cached chat that call is issued. *)
Theorem attachment_is_dropped env w a :
  attachment (composer w) = Some a ->
  isLoading (submitMessage w) = false -> microtasks w = [] ->
  let w' := exec (send chat account env) w in
  (forall args, ECreateChatMessage args ∈ log w' ->
     ECreateChatMessage args ∈ log w \/ args = [chat_id chat; content (composer w)]) /\
  variables (submitMessage w') =
    Some (mkNewMessage (chat_id chat) (content (composer w))) /\
  (is_Some (read_pages key w) ->
   last (log w') = Some (ECreateChatMessage [chat_id chat; content (composer w)])).
Proof.
  intros Hat Hl Ht w'.
  assert (Ha : accepts w = true).
  { unfold accepts, isSubmitDisabled. rewrite Hat, Hl.
    destruct (_ =? _)%nat; reflexivity. }
  destruct (send_accepted_cases env w Ha Ht) as (_ & _ & _ & Hv & Hcases).
  fold w' in Hv, Hcases. split; [| split; [exact Hv |]].
  - intros args Hin.
    destruct Hcases as [(_ & _ & Hlog) | (_ & _ & Hlog)]; rewrite Hlog in Hin;
      unfold onMutateEvents, clearEvents in Hin; elem_cases Hin;
      try discriminate; try (left; assumption).
    right. congruence.
  - intros Hsome. destruct Hcases as [(_ & _ & Hlog) | (Hnone & _)].
    + rewrite Hlog. rewrite app_comm_cons, app_assoc. apply last_snoc.
    + rewrite Hnone in Hsome. destruct Hsome; discriminate.
Qed.

(** ** Single flight *)

Lemma initial_consistent env q : consistent (initial env q).
Proof. repeat split. intros [=]. Qed.

Lemma isLoading_true s : isLoading s = true <-> status s = loading.
Proof. unfold isLoading. apply bool_decide_eq_true. Qed.

Lemma loading_rejects w : status (submitMessage w) = loading -> accepts w = false.
Proof.
  intros H. unfold accepts. apply isLoading_true in H. rewrite H.
  apply andb_false_r.
Qed.

Lemma send_consistent env w :
  consistent w -> consistent (exec (send chat account env) w).
Proof.
  intros (Ht & Hv & Hc). destruct (accepts w) eqn:Ha.
  - destruct (send_accepted_cases env w Ha Ht) as (_ & _ & Ht' & Hv' & Hcases).
    assert (Hl : isLoading (submitMessage w) = false).
    { unfold accepts in Ha. apply andb_true_iff in Ha as [_ Ha].
      apply negb_true_iff in Ha. exact Ha. }
    rewrite Hl in Hc.
    split; [exact Ht' | split; [rewrite Hv'; eauto |]].
    destruct Hcases as [(_ & Hs & Hlog) | (_ & Hs & Hlog)]; rewrite Hlog;
      unfold isLoading; rewrite Hs; unfold onMutateEvents, clearEvents;
      rewrite !count_app; cbn; case_bool_decide; try congruence; lia.
  - unfold exec. rewrite (send_rejected chat account env w Ha Ht). repeat split; assumption.
Qed.

Ltac simple_step :=
  run; unfold consistent; cbn [microtasks submitMessage log status variables];
  rewrite ?count_app; cbn [count is_create is_response]; repeat split; try assumption; try lia.

Lemma step_consistent env i w :
  consistent w -> enabled i w -> consistent (exec (step chat account env i) w).
Proof.
  intros Hw He.
  destruct i as [value | k shiftKey | | r | | | data | | | | | k | k d];
    try (destruct Hw as (Ht & Hv & Hc); unpack w; cbn in Ht, Hv, Hc; subst;
         simple_step; fail).
  - (* a key *)
    change (exec (step chat account env (KeyPressed k shiftKey)) w)
      with (exec (handleKeyDown chat k shiftKey ;;; flush chat account env) w).
    unfold handleKeyDown.
    destruct (bool_decide (k = "Enter")), shiftKey; cbn [andb];
      try apply (send_consistent env w Hw);
      destruct Hw as (Ht & Hv & Hc); unpack w; cbn in Ht, Hv, Hc; subst; simple_step.
  - (* the send button *)
    apply (send_consistent env w Hw).
  - (* the response *)
    destruct Hw as (Ht & Hv & Hc). cbn [enabled] in He.
    rewrite (proj2 (isLoading_true _) He) in Hc.
    unpack w. cbn in Ht, Hv, Hc, He. subst.
    destruct (Hv eq_refl) as [v ->].
    destruct r as [| e]; [| destruct ctx as [[[prev|]]|]]; run;
      unfold consistent, isLoading;
      cbn [microtasks submitMessage log status variables];
      rewrite ?count_app; cbn;
      (split; [reflexivity | split; [intros [=] | case_bool_decide; [congruence | lia]]]).
Qed.

Lemma reachable_consistent w : reachable chat account w -> consistent w.
Proof.
  induction 1 as [env q | env i w _ IH He].
  - apply initial_consistent.
  - apply step_consistent; assumption.
Qed.

Lemma consistent_in_flight w :
  consistent w -> in_flight w = if isLoading (submitMessage w) then 1 else 0.
Proof.
  intros (_ & _ & Hc). unfold in_flight. rewrite Hc.
  destruct (isLoading _); lia.
Qed.

Lemma sendMessage_from_render w :
  sendMessage chat w = sendMessage_from chat (render w) w.
Proof. unpack w. reflexivity. Qed.

Lemma sendMessage_from_loading r w :
  r_isLoading r = true -> sendMessage_from chat r w = (Ok tt, w).
Proof.
  intros H. unfold sendMessage_from. rewrite H, andb_false_r. reflexivity.
Qed.

Lemma flush_quiet env w :
  microtasks w = [] -> flush chat account env w = (Ok tt, w).
Proof. unpack w. cbn. intros ->. reflexivity. Qed.

(** C5 (amended).  Single flight holds per mounted instance and per render.
    In every state one instance reaches, a render after each event, at most
    one of its create-message calls is in flight, and a send from a render
    that saw the submission loading returns the world it was given: nothing
    is queued, no call is issued.  An accepted send on a cached chat does
    issue the create-message call and leaves the submission loading; a
    second send from the next render, before the first settles, is rejected,
    so the two sends add exactly one create-message call. *)
Theorem single_flight_per_instance w :
  reachable chat account w ->
  in_flight w <= 1 /\
  (forall r env,
     r_isLoading r = true ->
     (sendMessage_from chat r ;;; flush chat account env) w = (Ok tt, w)) /\
  (forall env1 env2,
     accepts w = true ->
     is_Some (read_pages key w) ->
     let w1 := exec (send chat account env1) w in
     let second := sendMessage_from chat (render w1) ;;; flush chat account env2 in
     status (submitMessage w1) = loading /\
     last (log w1) = Some (ECreateChatMessage [chat_id chat; content (composer w)]) /\
     in_flight w1 = 1 /\
     second w1 = (Ok tt, w1) /\
     count is_create (log (exec second w1)) = S (count is_create (log w))).
Proof.
  intros Hr. pose proof (reachable_consistent w Hr) as Hw.
  assert (Hrej : forall w0 r env, consistent w0 -> r_isLoading r = true ->
            (sendMessage_from chat r ;;; flush chat account env) w0 = (Ok tt, w0)).
  { intros w0 r env (Ht0 & _) Hl. unfold bind.
    rewrite (sendMessage_from_loading r w0 Hl). apply flush_quiet, Ht0. }
  split; [| split].
  - rewrite (consistent_in_flight w Hw). destruct (isLoading _); lia.
  - intros r env Hl. apply Hrej; assumption.
  - intros env1 env2 Ha Hcached w1 second.
    pose proof (send_consistent env1 w Hw) as Hw1. fold w1 in Hw1.
    destruct Hw as (Ht & _).
    destruct (send_accepted_cases env1 w Ha Ht) as (_ & _ & _ & _ & Hcases).
    fold w1 in Hcases.
    destruct Hcases as [(_ & Hs & Hlog) | (Hnone & _)];
      [| rewrite Hnone in Hcached; destruct Hcached; discriminate].
    assert (Hsecond : second w1 = (Ok tt, w1)).
    { apply Hrej; [exact Hw1 |]. cbn [render r_isLoading].
      apply isLoading_true, Hs. }
    split; [exact Hs | split; [| split; [| split; [exact Hsecond |]]]].
    + rewrite Hlog, app_comm_cons, app_assoc. apply last_snoc.
    + rewrite (consistent_in_flight w1 Hw1).
      rewrite (proj2 (isLoading_true _) Hs). reflexivity.
    + unfold exec. rewrite Hsecond. cbn [snd]. rewrite Hlog.
      unfold onMutateEvents, clearEvents. rewrite !count_app. cbn. lia.
Qed.

(** ** The reset token *)

Lemma fileKeyGen_range (r : Q) :
  (0 <= r)%Q -> (r < 1)%Q -> 0 <= fileKeyGen r < 0x10000.
Proof.
  intros H0 H1. unfold fileKeyGen. split.
  - change 0 with (Qfloor (inject_Z 0)) at 1. apply Qfloor_resp_le.
    change (inject_Z 0) with (0 * inject_Z 65536)%Q.
    apply Qmult_le_compat_r; [exact H0 | discriminate].
  - rewrite Zlt_Qlt. eapply Qle_lt_trans; [apply Qfloor_le |].
    change (inject_Z 65536) with (1 * inject_Z 65536)%Q at 2.
    apply Qmult_lt_compat_r; [reflexivity | exact H1].
Qed.

(** C8 (amended).  Removing the attachment sets the reset token to a new
    draw [fileKeyGen ()], an integer in [0, 0x10000) that does not depend on
    the token before it; a failed upload clears the uploading flag and
    leaves the reset token as it was. *)
Theorem reset_token_is_redrawn env w :
  (0 <= random env)%Q -> (random env < 1)%Q ->
  let w' := exec (handleRemoveFile env) w in
  resetFileKey (composer w') = fileKeyGen (random env) /\
  0 <= resetFileKey (composer w') < 0x10000 /\
  attachment (composer w') = None /\
  resetFileKey (composer (exec handleFiles_catch w)) = resetFileKey (composer w) /\
  isUploading (composer (exec handleFiles_catch w)) = false.
Proof.
  intros H0 H1 w'. subst w'. unpack w. run.
  repeat split; try apply (fileKeyGen_range _ H0 H1).
Qed.

End Claims.


Lemma rollback_keeps_optimistic_entry_witness :
  read_pages (messagesKey ex_chat)
    (exec (onError ex_chat (TypeError "Network Error") (mkNewMessage "c1" "hi")
             (Some (mkContext (Some 1%positive))))
       (exec (onMutate ex_chat ex_account ex_env (mkNewMessage "c1" "hi"))
          (ex_world "hi" None ex_client)))
  ≠ read_pages (messagesKey ex_chat) (ex_world "hi" None ex_client).
Proof.
  apply (rollback_keeps_optimistic_entry ex_chat ex_account ex_env
           (mkNewMessage "c1" "hi") (TypeError "Network Error")
           (ex_world "hi" None ex_client) 1%positive
           (mkInfiniteData [mkPage [ex_message] []] []) (mkPage [ex_message] []) []);
    reflexivity.
Defined.

Lemma failed_send_leaves_pending_entry_witness :
  first_page_result (messagesKey ex_chat)
    (exec (settle ex_chat (Rejected (TypeError "Network Error")))
       (exec (send ex_chat ex_account ex_env) (ex_world "hi" None ex_client)))
  = Some [ex_message;
          mkChatMessage (Some "c1") "hi" "1700000000000" 1700000000001 (Some "me") true].
Proof.
  apply (failed_send_leaves_pending_entry ex_chat ex_account ex_env
           (TypeError "Network Error") (ex_world "hi" None ex_client) 1%positive
           (mkInfiniteData [mkPage [ex_message] []] []) (mkPage [ex_message] []) []);
    reflexivity.
Defined.

Lemma uncached_insert_throws_witness :
  outcome (onMutate ex_chat ex_account ex_env (mkNewMessage "c1" "hi"))
    (ex_world "hi" None ex_client_empty)
  = Throw (TypeError "Cannot read properties of undefined (reading 'pages')").
Proof.
  apply (uncached_insert_throws ex_chat ex_account ex_env
           (ex_world "hi" None ex_client_empty)); reflexivity.
Defined.

Lemma empty_send_is_noop_witness :
  sendMessage ex_chat (ex_world "" None ex_client)
  = (Ok tt, ex_world "" None ex_client).
Proof.
  apply (empty_send_is_noop ex_chat (ex_world "" None ex_client)); reflexivity.
Defined.

(** C2 (counterexample).  One cached page holding [ex_message]: after the
    send the front of the first page is still [ex_message], not the new
    entry, which is last. *)
Lemma optimistic_insert_not_prepended :
  (first_page_result (messagesKey ex_chat)
     (exec (send ex_chat ex_account ex_env) (ex_world "hi" None ex_client)) ≫= head)
  ≠ Some (optimisticMessage ex_account ex_env (mkNewMessage "c1" "hi")).
Proof. vm_compute. discriminate. Qed.

Lemma optimistic_insert_appends_witness :
  read_pages (messagesKey ex_chat)
    (exec (send ex_chat ex_account ex_env) (ex_world "hi" None ex_client))
  = Some [mkPage [ex_message;
                  optimisticMessage ex_account ex_env (mkNewMessage "c1" "hi")] []].
Proof.
  apply (optimistic_insert_appends ex_chat ex_account ex_env
           (ex_world "hi" None ex_client) 1%positive
           (mkInfiniteData [mkPage [ex_message] []] []) (mkPage [ex_message] []) []);
    reflexivity.
Defined.

(** C9 (counterexample).  [ex_chat] is accepted, so the gate does not need
    acceptance; the send still calls [acceptChat.mutate ()]. *)
Lemma accept_issued_on_accepted_chat :
  needsAcceptance ex_chat ex_account = false /\
  log (exec (sendMessage ex_chat) (ex_world "hi" None ex_client)) = [EAcceptChatMutate].
Proof. split; reflexivity. Qed.

Lemma accept_is_unconditional_witness :
  log (exec (sendMessage ex_chat) (ex_world "hi" None ex_client))
  = log (ex_world "hi" None ex_client) ++ [EAcceptChatMutate].
Proof.
  apply (accept_is_unconditional ex_chat ex_account ex_env
           (ex_world "hi" None ex_client)); reflexivity.
Defined.


Lemma attachment_is_dropped_witness :
  last (log (exec (send ex_chat ex_account ex_env)
               (ex_world "look" (Some ex_attachment) ex_client)))
  = Some (ECreateChatMessage ["c1"; "look"]).
Proof.
  apply (attachment_is_dropped ex_chat ex_account ex_env
           (ex_world "look" (Some ex_attachment) ex_client) ex_attachment);
    [reflexivity | reflexivity | reflexivity | vm_compute; eauto].
Defined.

Lemma ex_typed_reachable : reachable ex_chat ex_account ex_typed.
Proof. apply reachable_step; [apply reachable_initial | exact I]. Qed.

(** C5 (counterexample).  The closure of one render is called twice before
    the next render: both calls pass the guard, which tests the render's
    [isLoading], and two create-message calls are issued.  And a second
    instance, mounted over the cache while the first instance's submission
    is unsettled, sends on the same chat: each instance has one call in
    flight, and the first page holds the pending entries of both. *)
Lemma single_flight_broken_within_a_render :
  count is_create
    (log (exec (sendMessage_from ex_chat (render ex_typed) ;;;
                sendMessage_from ex_chat (render ex_typed) ;;;
                flush ex_chat ex_account ex_env) ex_typed)) = 2%nat /\
  reachable ex_chat ex_account ex_remounted_sent /\
  in_flight ex_sent = 1 /\
  in_flight ex_remounted_sent = 1 /\
  first_page_result (messagesKey ex_chat) ex_remounted_sent
  = Some [ex_message;
          optimisticMessage ex_account ex_env (mkNewMessage "c1" "hi");
          optimisticMessage ex_account ex_env_later (mkNewMessage "c1" "again")].
Proof.
  split; [reflexivity |]. split; [| repeat split].
  apply reachable_step; [| exact I].
  apply reachable_step; [apply reachable_initial | exact I].
Qed.

Lemma single_flight_per_instance_witness :
  in_flight ex_typed <= 1 /\
  last (log (exec (send ex_chat ex_account ex_env) ex_typed))
  = Some (ECreateChatMessage ["c1"; "hi"]) /\
  (sendMessage_from ex_chat (render (exec (send ex_chat ex_account ex_env) ex_typed)) ;;;
   flush ex_chat ex_account ex_env_later) (exec (send ex_chat ex_account ex_env) ex_typed)
  = (Ok tt, exec (send ex_chat ex_account ex_env) ex_typed).
Proof.
  destruct (single_flight_per_instance ex_chat ex_account ex_typed ex_typed_reachable)
    as (H1 & _ & H3).
  destruct (H3 ex_env ex_env_later) as (_ & H4 & _ & H5 & _);
    [reflexivity | vm_compute; eauto |].
  split; [exact H1 | split; [exact H4 | exact H5]].
Defined.

(** C8 (counterexample).  The token is 32768 and [Math.random ()] returns
    0.5: the removal draws 32768 again, so the token is not greater than
    before, and a second removal yields the same token once more.  A failed
    upload does not change the token at all. *)
Lemma reset_token_not_increasing :
  ¬ (resetFileKey (composer ex_with_file)
       < resetFileKey (composer (exec (handleRemoveFile ex_env) ex_with_file))) /\
  resetFileKey (composer (exec (handleRemoveFile ex_env)
                            (exec (handleRemoveFile ex_env) ex_with_file)))
    = resetFileKey (composer (exec (handleRemoveFile ex_env) ex_with_file)) /\
  resetFileKey (composer (exec handleFiles_catch ex_with_file))
    = resetFileKey (composer ex_with_file).
Proof. repeat split. vm_compute. discriminate. Qed.

Lemma reset_token_is_redrawn_witness :
  resetFileKey (composer (exec (handleRemoveFile ex_env)
                            ex_with_file))
  = fileKeyGen (1 # 2).
Proof.
  apply (reset_token_is_redrawn ex_env ex_with_file);
    [discriminate | reflexivity].
Defined.

(** * Further properties *)

Section Extras.
Variable chat : IChat.
Variable account : option Account.

Abbreviation key := (messagesKey chat).

(** [settle] never touches the composer. *)
Lemma settle_composer r w : composer (exec (settle chat r) w) = composer w.
Proof.
  unpack w. destruct vars as [v|], r as [|e]; try destruct ctx as [[[prev|]]|];
    run; reflexivity.
Qed.

Lemma cached_is_Some k w : is_Some (read_pages k w) <->
  exists l d, queries (queryClient w) !! k = Some l /\ heap (queryClient w) !! l = Some d.
Proof.
  unfold read_pages. split.
  - intros [ps H]. destruct (queries (queryClient w) !! k) as [l|]; [| discriminate].
    cbn in H. destruct (heap (queryClient w) !! l) as [d|] eqn:Hh; [| discriminate].
    exists l, d. split; [reflexivity | exact Hh].
  - intros (l & d & -> & Hh). cbn. rewrite Hh. cbn. eauto.
Qed.

(** X1.  A send reads and writes the cache only under the chat's own key:
    the pages cached under any other key, held in another object, are what
    they were, and a fetch in flight that is not under the chat's key stays
    in flight. *)
Theorem send_leaves_other_chats_alone env w k' :
  microtasks w = [] ->
  k' ≠ key ->
  (forall l, queries (queryClient w) !! key = Some l ->
             queries (queryClient w) !! k' ≠ Some l) ->
  let w' := exec (send chat account env) w in
  read_pages k' w' = read_pages k' w /\
  (k' ∈ fetching (queryClient w) -> ¬ key `prefix_of` k' ->
   k' ∈ fetching (queryClient w')).
Proof.
  intros Ht Hk Halias w'. subst w'. unfold exec.
  destruct (accepts w) eqn:Ha;
    [| rewrite (send_rejected chat account env w Ha Ht); split; [reflexivity | tauto]].
  destruct (queries (queryClient w) !! key) as [l|] eqn:Hq;
    [destruct (heap (queryClient w) !! l) as [d|] eqn:Hh |].
  - rewrite (send_cached chat account env w l d Ha Ht Hq Hh). cbn [snd]. split.
    + unfold read_pages. cbn [queryClient inserted queries heap].
      rewrite lookup_insert_ne by congruence.
      destruct (queries (queryClient w) !! k') as [l'|] eqn:Hq'; [| reflexivity].
      cbn. rewrite lookup_alter_ne; [reflexivity |].
      intros ->. exact (Halias l' eq_refl eq_refl).
    + intros Hin Hp. cbn [queryClient inserted fetching]. unfold cancelled.
      apply elem_of_filter. split; assumption.
  - rewrite (send_throwing chat account env w Ha Ht); [| right; eauto]. cbn [snd]. split.
    + reflexivity.
    + intros Hin Hp. cbn [queryClient fetching]. unfold cancelled.
      apply elem_of_filter. split; assumption.
  - rewrite (send_throwing chat account env w Ha Ht); [| left; exact Hq]. cbn [snd]. split.
    + reflexivity.
    + intros Hin Hp. cbn [queryClient fetching]. unfold cancelled.
      apply elem_of_filter. split; assumption.
Qed.

(** X2.  On a chat cached with no page at all the updater maps over an
    empty array: no optimistic entry is added anywhere, yet the
    create-message call is issued; and after a rejection the rollback leaves
    the (still empty) pages as they were. *)
Theorem send_with_no_page env e w l d :
  accepts w = true -> microtasks w = [] ->
  queries (queryClient w) !! key = Some l ->
  heap (queryClient w) !! l = Some d ->
  pages d = [] ->
  let w1 := exec (send chat account env) w in
  let w2 := exec (settle chat (Rejected e)) w1 in
  read_pages key w1 = Some [] /\
  status (submitMessage w1) = loading /\
  last (log w1) = Some (ECreateChatMessage [chat_id chat; content (composer w)]) /\
  read_pages key w2 = read_pages key w.
Proof.
  intros Ha Ht Hq Hh Hp w1 w2. subst w2 w1. unfold exec.
  rewrite (send_cached chat account env w l d Ha Ht Hq Hh). cbn [snd].
  erewrite settle_rejected by reflexivity.
  cbn [snd composer submitMessage queryClient microtasks log status].
  rewrite (read_pages_cached chat w l d Hq Hh), Hp.
  repeat split.
  - erewrite (read_pages_inserted chat account env _ l d w _ Hh);
      [| reflexivity | apply lookup_insert_eq].
    rewrite Hp. reflexivity.
  - rewrite app_comm_cons, app_assoc. apply last_snoc.
  - erewrite (read_pages_inserted chat account env _ l d w _ Hh);
      [| reflexivity | apply lookup_insert_eq].
    rewrite Hp. reflexivity.
Qed.

(** X3.  When the create-message call is fulfilled nothing is written to
    the cache: the optimistic entry, still pending, stays the last entry of
    the first page; the chat's key is marked stale by the one invalidation,
    and the submission ends in the success state. *)
Theorem fulfilled_send_keeps_pending_entry env w l d p ps :
  accepts w = true -> microtasks w = [] ->
  queries (queryClient w) !! key = Some l ->
  heap (queryClient w) !! l = Some d ->
  pages d = p :: ps ->
  let msg := optimisticMessage account env
               (mkNewMessage (chat_id chat) (content (composer w))) in
  let w2 := exec (settle chat Fulfilled) (exec (send chat account env) w) in
  read_pages key w2 = Some (mkPage (result p ++ [msg]) (page_rest p) :: ps) /\
  msg_pending msg = true /\
  status (submitMessage w2) = success /\
  key ∈ stale (queryClient w2) /\
  log w2 = log w ++ EAcceptChatMutate :: onMutateEvents chat env ++
             [ECreateChatMessage [chat_id chat; content (composer w)];
              EResponse Fulfilled; EInvalidateQueries key].
Proof.
  intros Ha Ht Hq Hh Hp msg w2. subst w2. unfold exec.
  rewrite (send_cached chat account env w l d Ha Ht Hq Hh). cbn [snd].
  erewrite settle_fulfilled by reflexivity.
  cbn [snd composer submitMessage queryClient microtasks log status stale].
  split; [| split; [reflexivity | split; [reflexivity | split]]].
  - erewrite (read_pages_inserted chat account env _ l d w _ Hh);
      [| reflexivity | apply lookup_insert_eq].
    rewrite Hp, imap_mapPage_cons. reflexivity.
  - apply elem_of_union_r, elem_of_filter. split; [reflexivity |].
    cbn [inserted queries]. apply elem_of_dom. rewrite lookup_insert_eq. eauto.
  - rewrite <- !app_assoc. cbn [app]. rewrite <- !app_assoc. reflexivity.
Qed.

(** ** The submission from send to settle *)

Lemma initial_has_context env q : has_context (initial env q).
Proof. intros [=]. Qed.

Lemma send_has_context env w :
  consistent w -> has_context w -> has_context (exec (send chat account env) w).
Proof.
  intros (Ht & _) Hw. unfold exec. destruct (accepts w) eqn:Ha;
    [| rewrite (send_rejected chat account env w Ha Ht); exact Hw].
  destruct (queries (queryClient w) !! key) as [l|] eqn:Hq;
    [destruct (heap (queryClient w) !! l) as [d|] eqn:Hh |].
  - rewrite (send_cached chat account env w l d Ha Ht Hq Hh). intros _. cbn. eauto.
  - rewrite (send_throwing chat account env w Ha Ht); [| right; eauto]. intros [=].
  - rewrite (send_throwing chat account env w Ha Ht); [| left; exact Hq]. intros [=].
Qed.

Lemma step_has_context env i w :
  consistent w -> has_context w -> enabled i w ->
  has_context (exec (step chat account env i) w).
Proof.
  intros Hc Hw He.
  destruct i as [value | k shiftKey | | r | | | data | | | | | k | k d];
    try (destruct Hc as (Ht & Hv & _); unpack w; cbn in Ht, Hv, Hw; subst;
         run; exact Hw).
  - change (exec (step chat account env (KeyPressed k shiftKey)) w)
      with (exec (handleKeyDown chat k shiftKey ;;; flush chat account env) w).
    unfold handleKeyDown.
    destruct (bool_decide (k = "Enter")), shiftKey; cbn [andb];
      try apply (send_has_context env w Hc Hw);
      destruct Hc as (Ht & Hv & _); unpack w; cbn in Ht, Hv, Hw; subst; run; exact Hw.
  - apply (send_has_context env w Hc Hw).
  - destruct Hc as (Ht & Hv & _). cbn [enabled] in He.
    unpack w. cbn in Ht, Hv, He. subst. destruct (Hv eq_refl) as [v ->].
    destruct r as [| e]; [| destruct ctx as [[[prev|]]|]]; run; intros [=].
Qed.

Lemma reachable_has_context w : reachable chat account w -> has_context w.
Proof.
  induction 1 as [env q | env i w Hr IH He].
  - apply initial_has_context.
  - apply step_has_context;
      [apply (reachable_consistent chat account), Hr | exact IH | exact He].
Qed.

(** X4.  In every reachable state with a submission loading, the settling
    of the create-message call, fulfilled or rejected, runs [onSettled]
    last: exactly one invalidation of the chat's key is added, it is the
    last event, the submission leaves the loading state for success or
    error, and no call is in flight any more. *)
Theorem settle_invalidates_once w r :
  reachable chat account w ->
  status (submitMessage w) = loading ->
  let w' := exec (settle chat r) w in
  status (submitMessage w') =
    match r with Fulfilled => success | Rejected _ => error end /\
  count is_invalidate (log w') = S (count is_invalidate (log w)) /\
  last (log w') = Some (EInvalidateQueries key) /\
  in_flight w' = 0.
Proof.
  intros Hr Hs w'. subst w'.
  destruct (reachable_consistent chat account w Hr) as (Ht & Hv & Hc).
  pose proof (reachable_has_context w Hr Hs) as [c Hctx].
  rewrite (proj2 (isLoading_true _) Hs) in Hc. unfold in_flight.
  unpack w. cbn in Ht, Hv, Hc, Hs, Hctx. subst.
  destruct (Hv eq_refl) as [v ->]. destruct c as [prev].
  destruct r as [| e]; [| destruct prev as [l|]]; run;
    rewrite ?count_app; cbn [count is_invalidate is_create is_response];
    (split; [reflexivity | split; [lia | split; [apply last_snoc | lia]]]).
Qed.

(** X5.  The draft is cleared when the send is accepted and nothing brings
    it back: after a rejected create-message call the composer still has
    empty content and no attachment, whatever was typed or attached. *)
Theorem failed_send_loses_draft env e w :
  accepts w = true -> microtasks w = [] ->
  let w2 := exec (settle chat (Rejected e)) (exec (send chat account env) w) in
  content (composer w2) = "" /\
  attachment (composer w2) = None /\
  composer w2 = cleared env.
Proof.
  intros Ha Ht w2. subst w2. rewrite settle_composer.
  destruct (send_accepted_cases chat account env w Ha Ht) as (Hc & _).
  rewrite Hc. repeat split.
Qed.

Lemma typed_after w env v :
  microtasks w = [] ->
  let w1 := exec (step chat account env (ContentChanged v)) w in
  content (composer w1) = v /\ submitMessage w1 = submitMessage w /\
  queryClient w1 = queryClient w.
Proof. unpack w. cbn. intros ->. run. repeat split. Qed.

(** X6.  Single flight ends with the settle: from any reachable state with
    a submission loading, once the call has settled and some text is typed,
    the guard accepts again, and on a chat still cached the next send
    issues the create-message call with that text, the only call in
    flight. *)
Theorem resend_after_settle w r v env0 env1 env2 :
  reachable chat account w ->
  status (submitMessage w) = loading ->
  v ≠ "" ->
  let w1 := exec (step chat account env1 (ContentChanged v))
              (exec (step chat account env0 (SubmitSettled r)) w) in
  let w2 := exec (send chat account env2) w1 in
  accepts w1 = true /\
  (is_Some (read_pages key w1) ->
   last (log w2) = Some (ECreateChatMessage [chat_id chat; v]) /\
   in_flight w2 = 1).
Proof.
  intros Hr Hs Hv w1 w2.
  set (w0 := exec (step chat account env0 (SubmitSettled r)) w) in *.
  assert (Hr0 : reachable chat account w0) by (apply reachable_step; assumption).
  assert (Hs0 : status (submitMessage w0) ≠ loading).
  { subst w0. destruct (reachable_consistent chat account w Hr) as (Ht & Hvars & _).
    unpack w. cbn in Ht, Hvars, Hs. subst. destruct (Hvars eq_refl) as [v0 ->].
    destruct r as [| e]; [| destruct ctx as [[[prev|]]|]]; run; discriminate. }
  destruct (reachable_consistent chat account w0 Hr0) as (Ht0 & _).
  destruct (typed_after w0 env1 v Ht0) as (Hc1 & Hm1 & _). fold w1 in Hc1, Hm1.
  assert (Hr1 : reachable chat account w1) by (apply reachable_step; [exact Hr0 | exact I]).
  destruct (reachable_consistent chat account w1 Hr1) as (Ht1 & _).
  assert (Ha : accepts w1 = true).
  { assert (Hl : isLoading (submitMessage w1) = false).
    { unfold isLoading. rewrite Hm1. apply bool_decide_eq_false_2, Hs0. }
    unfold accepts, isSubmitDisabled. rewrite Hl, Hc1.
    destruct v; [congruence | reflexivity]. }
  split; [exact Ha |]. intros Hcached.
  destruct (send_accepted_cases chat account env2 w1 Ha Ht1) as (_ & _ & _ & _ & Hcases).
  fold w2 in Hcases.
  destruct Hcases as [(_ & Hl & Hlog) | (Hnone & _)].
  - split.
    + rewrite Hlog, Hc1, app_comm_cons, app_assoc. apply last_snoc.
    + assert (Hr2 : reachable chat account w2).
      { apply (reachable_step chat account env2 SendClicked w1 Hr1 I). }
      rewrite (consistent_in_flight w2 (reachable_consistent chat account w2 Hr2)).
      rewrite (proj2 (isLoading_true _) Hl). reflexivity.
  - rewrite Hnone in Hcached. destruct Hcached; discriminate.
Qed.

Lemma fetched_read k d' w :
  read_pages k (exec (fetch_fulfilled k d') (exec (fetch k) w)) = Some (pages d').
Proof.
  unpack w. run. unfold read_pages. cbn [queryClient queries heap].
  rewrite lookup_insert_eq. cbn. rewrite lookup_insert_eq. reflexivity.
Qed.

Lemma rollback_after_fetch e d' w vars l d0 :
  submitMessage w = mkMutationState loading (Some vars) (Some (mkContext (Some l))) ->
  heap (queryClient w) !! l = Some d0 ->
  read_pages key
    (exec (settle chat (Rejected e))
       (exec (fetch_fulfilled key d') (exec (fetch key) w)))
  = Some (pages d0).
Proof.
  unpack w. cbn [submitMessage queryClient heap]. intros [= -> -> ->] Hd. run.
  unfold read_pages. cbn [queryClient queries heap].
  rewrite lookup_insert_eq. cbn.
  rewrite lookup_insert_ne, Hd; [reflexivity |].
  intros Heq. apply (is_fresh (dom h)). rewrite Heq.
  apply elem_of_dom. eauto.
Qed.

(** X7.  The rollback does not look at what the cache holds: when a fetch
    of the chat's pages resolves between the send and the rejection of the
    create-message call, the rollback puts the snapshot object back in its
    place, and the pages the server returned are no longer what the cache
    reads. *)
Theorem rollback_overwrites_refetched_pages env e w l d p ps d' :
  accepts w = true -> microtasks w = [] ->
  queries (queryClient w) !! key = Some l ->
  heap (queryClient w) !! l = Some d ->
  pages d = p :: ps ->
  let msg := optimisticMessage account env
               (mkNewMessage (chat_id chat) (content (composer w))) in
  let w1 := exec (send chat account env) w in
  let w2 := exec (fetch_fulfilled key d') (exec (fetch key) w1) in
  let w3 := exec (settle chat (Rejected e)) w2 in
  read_pages key w2 = Some (pages d') /\
  read_pages key w3 = Some (mkPage (result p ++ [msg]) (page_rest p) :: ps).
Proof.
  intros Ha Ht Hq Hh Hp msg w1 w2 w3. subst w3 w2. split; [apply fetched_read |].
  subst w1. unfold exec at 4.
  rewrite (send_cached chat account env w l d Ha Ht Hq Hh). cbn [snd].
  erewrite rollback_after_fetch; [| reflexivity |].
  2:{ cbn [queryClient inserted heap]. rewrite lookup_alter_eq, Hh. reflexivity. }
  cbn [pages]. rewrite Hp, imap_mapPage_cons. reflexivity.
Qed.

Lemma append_line_feed_not_empty (s : string) :
  (String.length (String.append s (String (Ascii.ascii_of_nat 10) EmptyString)) =? 0)%nat
  = false.
Proof. destruct s; reflexivity. Qed.

(** X8.  Shift+Enter only edits the text: whatever the content is, it
    appends a line feed to it, sends nothing and leaves the attachment, the
    submission and the cache as they were.  The submit guard looks at the
    length alone, so the text is then sendable: on a cached chat with no
    submission loading, Enter issues the create-message call with the
    content followed by the line feed; from an empty composer, that is a
    text of one line feed. *)
Theorem shift_enter_appends_line_feed env1 env2 w :
  isLoading (submitMessage w) = false ->
  microtasks w = [] ->
  is_Some (read_pages key w) ->
  let lf := String (Ascii.ascii_of_nat 10) EmptyString in
  let w1 := exec (step chat account env1 (KeyPressed "Enter" true)) w in
  let w2 := exec (step chat account env2 (KeyPressed "Enter" false)) w1 in
  content (composer w1) = String.append (content (composer w)) lf /\
  attachment (composer w1) = attachment (composer w) /\
  log w1 = log w ++ [ESetContent (String.append (content (composer w)) lf)] /\
  submitMessage w1 = submitMessage w /\
  queryClient w1 = queryClient w /\
  last (log w2)
  = Some (ECreateChatMessage [chat_id chat; String.append (content (composer w)) lf]).
Proof.
  intros Hl Ht Hcached lf w1 w2.
  assert (H1 : w1 = mkWorld
            (mkComposer (String.append (content (composer w)) lf)
               (attachment (composer w)) (isUploading (composer w))
               (uploadProgress (composer w)) (resetFileKey (composer w)))
            (submitMessage w) (queryClient w) []
            (log w ++ [ESetContent (String.append (content (composer w)) lf)])).
  { subst w1. unpack w. cbn in Ht. subst. reflexivity. }
  assert (Ha : accepts w1 = true).
  { rewrite H1. unfold accepts, isSubmitDisabled. cbn [composer submitMessage content].
    subst lf. rewrite append_line_feed_not_empty, Hl. reflexivity. }
  assert (Ht1 : microtasks w1 = []) by (rewrite H1; reflexivity).
  assert (Hcached1 : is_Some (read_pages key w1)) by (rewrite H1; exact Hcached).
  split; [rewrite H1; reflexivity |].
  split; [rewrite H1; reflexivity |].
  split; [rewrite H1; reflexivity |].
  split; [rewrite H1; reflexivity |].
  split; [rewrite H1; reflexivity |].
  change w2 with (exec (send chat account env2) w1).
  destruct (send_accepted_cases chat account env2 w1 Ha Ht1) as (_ & _ & _ & _ & Hcases).
  destruct Hcases as [(_ & _ & Hlog) | (Hnone & _)].
  - rewrite Hlog, app_comm_cons, app_assoc, H1. apply last_snoc.
  - rewrite Hnone in Hcached1. destruct Hcached1; discriminate.
Qed.

(** X9.  A paste starts an upload only into an empty composer and only for
    a clipboard of exactly one file: with text typed, with an attachment
    set, or with any other clipboard, the paste changes nothing. *)
Theorem paste_is_ignored_unless_composer_empty clipboardData w :
  content (composer w) ≠ ""
  \/ is_Some (attachment (composer w))
  \/ (forall file, clipboardData ≠ Some [file]) ->
  handlePaste clipboardData w = (Ok tt, w).
Proof.
  intros H. unfold handlePaste, bind, gets.
  destruct (isSubmitDisabled (composer w)
            && match clipboardData with
               | Some files => (length files =? 1)%nat
               | None => false
               end) eqn:Hg; [| reflexivity].
  exfalso. apply andb_true_iff in Hg as [Hd Hf].
  unfold isSubmitDisabled in Hd. apply andb_true_iff in Hd as [Hlen Hatt].
  destruct H as [Hc | [Hsome | Hfiles]].
  - apply Hc. destruct (content (composer w)); [reflexivity | discriminate].
  - apply negb_true_iff, bool_decide_eq_false in Hatt. exact (Hatt Hsome).
  - destruct clipboardData as [[| file [| ? ?]]|]; try discriminate.
    exact (Hfiles file eq_refl).
Qed.

(** X10.  From an empty composer: one file is pasted, its upload is
    fulfilled, and the message is sent.  The upload sets the attachment;
    the send is accepted on the strength of the attachment alone, issues
    the create-message call with the empty text, and leaves the composer
    without the attachment. *)
Theorem pasted_file_is_sent_as_empty_text env w file data :
  content (composer w) = "" ->
  attachment (composer w) = None ->
  isLoading (submitMessage w) = false ->
  microtasks w = [] ->
  is_Some (read_pages key w) ->
  let w1 := exec (handlePaste (Some [file])) w in
  let w2 := exec (handleFiles_then data) w1 in
  let w3 := exec (send chat account env) w2 in
  isUploading (composer w1) = true /\
  last (log w1) = Some EUploadMedia /\
  attachment (composer w2) = Some data /\
  isUploading (composer w2) = false /\
  last (log w3) = Some (ECreateChatMessage [chat_id chat; ""]) /\
  attachment (composer w3) = None.
Proof.
  intros Hc Hat Hl Ht Hcached w1 w2 w3.
  assert (H2 : w2 = mkWorld
            (mkComposer "" (Some data) false (uploadProgress (composer w))
               (resetFileKey (composer w)))
            (submitMessage w) (queryClient w) []
            (log w ++ [ESetIsUploading true; EUploadMedia;
                       ESetAttachment (Some data); ESetIsUploading false])).
  { subst w2 w1. unpack w. cbn in Hc, Hat, Ht. subst. unfold handlePaste. run.
    cbn. rewrite <- !app_assoc. reflexivity. }
  assert (H1 : isUploading (composer w1) = true /\ last (log w1) = Some EUploadMedia).
  { subst w1. unpack w. cbn in Hc, Hat, Ht. subst. unfold handlePaste. run. cbn.
    split; [reflexivity | apply last_snoc]. }
  assert (Ha : accepts w2 = true).
  { rewrite H2. unfold accepts. cbn [composer submitMessage]. rewrite Hl. reflexivity. }
  assert (Ht2 : microtasks w2 = []) by (rewrite H2; reflexivity).
  assert (Hcached2 : is_Some (read_pages key w2)) by (rewrite H2; exact Hcached).
  destruct H1 as [H1a H1b].
  split; [exact H1a | split; [exact H1b |]].
  split; [rewrite H2; reflexivity | split; [rewrite H2; reflexivity |]].
  destruct (send_accepted_cases chat account env w2 Ha Ht2) as (Hcl & _ & _ & _ & Hcases).
  fold w3 in Hcl, Hcases. split; [| rewrite Hcl; reflexivity].
  destruct Hcases as [(_ & _ & Hlog) | (Hnone & _)].
  - rewrite Hlog, app_comm_cons, app_assoc, H2. apply last_snoc.
  - rewrite Hnone in Hcached2. destruct Hcached2; discriminate.
Qed.

(** ** The reset token over a run *)

Lemma reachable_drawn_reachable w :
  reachable_drawn chat account w -> reachable chat account w.
Proof.
  induction 1 as [env q _ | env i w _ _ IH He].
  - apply reachable_initial.
  - apply reachable_step; assumption.
Qed.

Lemma step_token env i w :
  microtasks w = [] ->
  resetFileKey (composer (exec (step chat account env i) w)) = resetFileKey (composer w)
  \/ resetFileKey (composer (exec (step chat account env i) w)) = fileKeyGen (random env).
Proof.
  intros Ht.
  assert (Hsend :
    resetFileKey (composer (exec (send chat account env) w)) = resetFileKey (composer w)
    \/ resetFileKey (composer (exec (send chat account env) w)) = fileKeyGen (random env)).
  { destruct (accepts w) eqn:Ha.
    - destruct (send_accepted_cases chat account env w Ha Ht) as (Hc & _).
      right. rewrite Hc. reflexivity.
    - left. unfold exec. rewrite (send_rejected chat account env w Ha Ht). reflexivity. }
  destruct i as [value | k shiftKey | | r | | | data | | | | | k | k d].
  3: exact Hsend.
  all: try (unpack w; cbn in Ht; subst; clear Hsend; run; auto; fail).
  - change (exec (step chat account env (KeyPressed k shiftKey)) w)
      with (exec (handleKeyDown chat k shiftKey ;;; flush chat account env) w).
    unfold handleKeyDown.
    destruct (bool_decide (k = "Enter")), shiftKey; cbn [andb];
      try exact Hsend; unpack w; cbn in Ht; subst; run; auto.
  - left. unpack w. cbn in Ht. subst.
    destruct vars as [v|], r as [|e]; try destruct ctx as [[[prev|]]|];
      run; reflexivity.
Qed.

(** X11.  When every draw is a number [Math.random ()] can return, the
    reset token is an integer in [0, 0x10000) in every reachable state:
    at mount, after each removal of the attachment and after each send. *)
Theorem reset_token_stays_in_range w :
  reachable_drawn chat account w -> token_in_range w.
Proof.
  induction 1 as [env q [H0 H1] | env i w [H0 H1] Hr IH He].
  - apply (fileKeyGen_range _ H0 H1).
  - destruct (reachable_consistent chat account w
                (reachable_drawn_reachable w Hr)) as (Ht & _).
    unfold token_in_range.
    destruct (step_token env i w Ht) as [-> | ->];
      [exact IH | apply (fileKeyGen_range _ H0 H1)].
Qed.

End Extras.

(** X12.  No handler reads the acceptance gate: two chats with the same id
    take every step of the machine alike, whether or not they are accepted
    and whoever created them.  In particular the composer sends on a chat
    that still needs acceptance. *)
Theorem steps_ignore_the_gate chat chat' account env i w :
  chat_id chat = chat_id chat' ->
  step chat account env i w = step chat' account env i w.
Proof.
  destruct chat as [id a c], chat' as [id' a' c']. cbn [chat_id].
  intros <-. destruct i; run; cbv [handleKeyDown messagesKey chat_id]; reflexivity.
Qed.

(** X13.  The client-generated id is the clock reading in decimal: the
    optimistic entries of two sends carry the same id exactly when the
    clock read the same millisecond for both. *)
Theorem optimistic_ids_collide_iff_same_reading account env1 env2 vars1 vars2 :
  msg_id (optimisticMessage account env1 vars1)
    = msg_id (optimisticMessage account env2 vars2)
  <-> now_id env1 = now_id env2.
Proof.
  cbn [optimisticMessage msg_id]. split.
  - apply (inj pretty).
  - intros ->. reflexivity.
Qed.

(** ** The further properties at the concrete chat *)

Lemma send_leaves_other_chats_alone_witness :
  read_pages ex_other_key
    (exec (send ex_chat ex_account ex_env) (ex_world "hi" None ex_client_two))
  = read_pages ex_other_key (ex_world "hi" None ex_client_two)
  /\ ex_other_key ∈ fetching (queryClient
       (exec (send ex_chat ex_account ex_env) (ex_world "hi" None ex_client_two))).
Proof.
  destruct (send_leaves_other_chats_alone ex_chat ex_account ex_env
              (ex_world "hi" None ex_client_two) ex_other_key) as [H1 H2].
  - reflexivity.
  - discriminate.
  - intros l Hl. vm_compute in Hl. injection Hl as <-. vm_compute. discriminate.
  - split; [exact H1 | apply H2].
    + change (ex_other_key ∈ ({[ ex_other_key ]} : gset QueryKey)).
      apply elem_of_singleton_2. reflexivity.
    + intros [k Hk]. discriminate Hk.
Defined.

Lemma send_with_no_page_witness :
  read_pages (messagesKey ex_chat)
    (exec (send ex_chat ex_account ex_env) (ex_world "hi" None ex_client_no_page))
  = Some [].
Proof.
  apply (send_with_no_page ex_chat ex_account ex_env (TypeError "Network Error")
           (ex_world "hi" None ex_client_no_page) 1%positive (mkInfiniteData [] []));
    reflexivity.
Defined.

Lemma fulfilled_send_keeps_pending_entry_witness :
  read_pages (messagesKey ex_chat)
    (exec (settle ex_chat Fulfilled)
       (exec (send ex_chat ex_account ex_env) (ex_world "hi" None ex_client)))
  = Some [mkPage [ex_message;
                  optimisticMessage ex_account ex_env (mkNewMessage "c1" "hi")] []].
Proof.
  apply (fulfilled_send_keeps_pending_entry ex_chat ex_account ex_env
           (ex_world "hi" None ex_client) 1%positive
           (mkInfiniteData [mkPage [ex_message] []] []) (mkPage [ex_message] []) []);
    reflexivity.
Defined.

Lemma ex_sent_reachable : reachable ex_chat ex_account ex_sent.
Proof. apply reachable_step; [apply ex_typed_reachable | exact I]. Qed.

Lemma settle_invalidates_once_witness :
  last (log (exec (settle ex_chat (Rejected (TypeError "Network Error"))) ex_sent))
  = Some (EInvalidateQueries (messagesKey ex_chat)).
Proof.
  apply (settle_invalidates_once ex_chat ex_account ex_sent
           (Rejected (TypeError "Network Error")) ex_sent_reachable).
  reflexivity.
Defined.

Lemma failed_send_loses_draft_witness :
  content (composer
    (exec (settle ex_chat (Rejected (TypeError "Network Error")))
       (exec (send ex_chat ex_account ex_env)
          (ex_world "hi" (Some ex_attachment) ex_client)))) = "".
Proof.
  apply (failed_send_loses_draft ex_chat ex_account ex_env (TypeError "Network Error")
           (ex_world "hi" (Some ex_attachment) ex_client)); reflexivity.
Defined.

Lemma resend_after_settle_witness :
  accepts
    (exec (step ex_chat ex_account ex_env (ContentChanged "again"))
       (exec (step ex_chat ex_account ex_env
                (SubmitSettled (Rejected (TypeError "Network Error")))) ex_sent))
  = true.
Proof.
  apply (resend_after_settle ex_chat ex_account ex_sent
           (Rejected (TypeError "Network Error")) "again" ex_env ex_env ex_env
           ex_sent_reachable); [reflexivity | discriminate].
Defined.

Lemma rollback_overwrites_refetched_pages_witness :
  read_pages (messagesKey ex_chat)
    (exec (settle ex_chat (Rejected (TypeError "Network Error")))
       (exec (fetch_fulfilled (messagesKey ex_chat) ex_refetched)
          (exec (fetch (messagesKey ex_chat))
             (exec (send ex_chat ex_account ex_env) (ex_world "hi" None ex_client)))))
  = Some [mkPage [ex_message;
                  optimisticMessage ex_account ex_env (mkNewMessage "c1" "hi")] []].
Proof.
  apply (rollback_overwrites_refetched_pages ex_chat ex_account ex_env
           (TypeError "Network Error") (ex_world "hi" None ex_client) 1%positive
           (mkInfiniteData [mkPage [ex_message] []] []) (mkPage [ex_message] []) []
           ex_refetched); reflexivity.
Defined.

Lemma shift_enter_appends_line_feed_witness :
  content (composer
    (exec (step ex_chat ex_account ex_env (KeyPressed "Enter" true))
       (ex_world "hi" None ex_client)))
  = String.append "hi" (String (Ascii.ascii_of_nat 10) EmptyString)
  /\ last (log
       (exec (step ex_chat ex_account ex_env (KeyPressed "Enter" false))
          (exec (step ex_chat ex_account ex_env (KeyPressed "Enter" true))
             (ex_world "" None ex_client))))
     = Some (ECreateChatMessage ["c1"; String (Ascii.ascii_of_nat 10) EmptyString]).
Proof.
  split.
  - apply (shift_enter_appends_line_feed ex_chat ex_account ex_env ex_env
             (ex_world "hi" None ex_client));
      [reflexivity | reflexivity | vm_compute; eauto].
  - apply (shift_enter_appends_line_feed ex_chat ex_account ex_env ex_env
             (ex_world "" None ex_client));
      [reflexivity | reflexivity | vm_compute; eauto].
Defined.

Lemma paste_is_ignored_unless_composer_empty_witness :
  handlePaste (Some ["photo.png"]) (ex_world "hi" None ex_client)
  = (Ok tt, ex_world "hi" None ex_client).
Proof.
  apply (paste_is_ignored_unless_composer_empty (Some ["photo.png"])
           (ex_world "hi" None ex_client)).
  left. discriminate.
Defined.

Lemma pasted_file_is_sent_as_empty_text_witness :
  last (log
    (exec (send ex_chat ex_account ex_env)
       (exec (handleFiles_then ex_attachment)
          (exec (handlePaste (Some ["photo.png"])) (ex_world "" None ex_client)))))
  = Some (ECreateChatMessage ["c1"; ""]).
Proof.
  apply (pasted_file_is_sent_as_empty_text ex_chat ex_account ex_env
           (ex_world "" None ex_client) "photo.png" ex_attachment);
    [reflexivity | reflexivity | reflexivity | reflexivity | vm_compute; eauto].
Defined.

Lemma ex_env_valid : valid_env ex_env.
Proof. split; [discriminate | reflexivity]. Qed.

Lemma reset_token_stays_in_range_witness :
  token_in_range
    (exec (step ex_chat ex_account ex_env RemoveFileClicked) (initial ex_env ex_client)).
Proof.
  apply (reset_token_stays_in_range ex_chat ex_account).
  apply reachable_drawn_step;
    [exact ex_env_valid | apply reachable_drawn_initial, ex_env_valid | exact I].
Defined.

Lemma steps_ignore_the_gate_witness :
  needsAcceptance ex_chat_unaccepted ex_account = true /\
  step ex_chat_unaccepted ex_account ex_env SendClicked (ex_world "hi" None ex_client)
  = step ex_chat ex_account ex_env SendClicked (ex_world "hi" None ex_client).
Proof.
  split; [reflexivity |].
  apply (steps_ignore_the_gate ex_chat_unaccepted ex_chat ex_account ex_env SendClicked
           (ex_world "hi" None ex_client)).
  reflexivity.
Defined.
